(** * Card-counting Blackjack environment with a double action

    A shallow embedding of [hw1/modified_blackjack_with_count.py]
    (class [BlackjackWithDoubleAndCountEnv]) and the properties of its
    shoe, running count, dealer loop and reward computation.

    Modelling choices:
    - card ranks, totals and the running count are Python integers: [Z];
    - the rewards are Python floats, but the only values that occur are
      -2, -1, 0, 1, 1.5 and 2, which binary floating point represents and
      combines exactly; they are modelled as rationals [Q];
    - the object's attributes are the fields of the record [env]; the hands
      are [option (list Z)] because [__init__] sets them to [None];
    - a method is a computation in a state-and-exception monad [M] in which,
      as in Python, the attributes assigned before an exception stay
      assigned;
    - the random source [np_random] is an arbitrary sequence of raw samples
      with a cursor: [choice] picks the element at the sample's index modulo
      the list length, so every element of the list can be picked;
    - the [while] loop of the dealer takes fuel; running out of it is the
      outcome [Diverge], which is not an exception. *)

From Stdlib Require Import ZArith QArith List Bool Lia Permutation.
Import ListNotations.
Open Scope Z_scope.

(** ** Module-level definitions *)

Definition float_of_bool (b : bool) : Q := if b then 1%Q else 0%Q.

(** [cmp(a, b) = float(a > b) - float(a < b)] *)
Definition cmp (a b : Z) : Q :=
  (float_of_bool (a >? b) - float_of_bool (a <? b))%Q.

Definition plus_minus_compliance : list (Z * Z) :=
  [(1, -1); (2, 1); (3, 1); (4, 1); (5, 1); (6, 1); (7, 0); (8, 0); (9, 0);
   (10, -1)].

(** Dictionary subscription [d[k]]; [None] stands for [KeyError]. *)
Fixpoint dict_get (k : Z) (d : list (Z * Z)) : option Z :=
  match d with
  | [] => None
  | (k', v) :: d' => if k =? k' then Some v else dict_get k d'
  end.

(** ** Python list operations used by the class *)

Definition sum (l : list Z) : Z := fold_left Z.add l 0.

(** [x in l] *)
Definition contains (x : Z) (l : list Z) : bool := existsb (Z.eqb x) l.

(** [l.remove(x)]: drops the first occurrence; [None] stands for
    [ValueError] when there is none. *)
Fixpoint list_remove (x : Z) (l : list Z) : option (list Z) :=
  match l with
  | [] => None
  | y :: l' =>
      if x =? y then Some l'
      else match list_remove x l' with
           | Some r => Some (y :: r)
           | None => None
           end
  end.

Fixpoint insert_sorted (x : Z) (l : list Z) : list Z :=
  match l with
  | [] => [x]
  | y :: l' => if x <=? y then x :: l else y :: insert_sorted x l'
  end.

(** [sorted(l)] *)
Definition sorted (l : list Z) : list Z := fold_right insert_sorted [] l.

Fixpoint list_eqb (l1 l2 : list Z) : bool :=
  match l1, l2 with
  | [], [] => true
  | x :: l1', y :: l2' => (x =? y) && list_eqb l1' l2'
  | _, _ => false
  end.

(** [l * n] *)
Definition list_mul (l : list Z) (n : nat) : list Z := concat (repeat l n).

(** [([i for i in range(1, 11)] + [10] * 3) * 4] *)
Definition fresh_deck : list Z :=
  list_mul (map Z.of_nat (seq 1 10) ++ list_mul [10] 3) 4.

(** ** The random source *)

Record RandomState : Type := mkRandomState {
  samples : nat -> nat;
  cursor : nat
}.

(** [np_random.choice(a)]: [None] stands for the [ValueError] numpy raises
    on an empty sequence. *)
Definition choice (r : RandomState) (a : list Z) : option (Z * RandomState) :=
  match a with
  | [] => None
  | c :: _ =>
      Some (nth (samples r (cursor r) mod length a)%nat a c,
            mkRandomState (samples r) (S (cursor r)))
  end.

(** ** The environment object *)

Record env : Type := mkEnv {
  dealer : option (list Z);
  player : option (list Z);
  plus_minus_sum : Z;
  amount_of_cards_lower_than_15 : bool;
  deck : list Z;
  folded_cards : list Z;
  np_random : RandomState;
  natural : bool;
  sab : bool
}.

Definition set_dealer (v : option (list Z)) (e : env) : env :=
  mkEnv v (player e) (plus_minus_sum e) (amount_of_cards_lower_than_15 e)
        (deck e) (folded_cards e) (np_random e) (natural e) (sab e).

Definition set_player (v : option (list Z)) (e : env) : env :=
  mkEnv (dealer e) v (plus_minus_sum e) (amount_of_cards_lower_than_15 e)
        (deck e) (folded_cards e) (np_random e) (natural e) (sab e).

Definition set_plus_minus_sum (v : Z) (e : env) : env :=
  mkEnv (dealer e) (player e) v (amount_of_cards_lower_than_15 e)
        (deck e) (folded_cards e) (np_random e) (natural e) (sab e).

Definition set_amount_of_cards_lower_than_15 (v : bool) (e : env) : env :=
  mkEnv (dealer e) (player e) (plus_minus_sum e) v
        (deck e) (folded_cards e) (np_random e) (natural e) (sab e).

Definition set_deck (v : list Z) (e : env) : env :=
  mkEnv (dealer e) (player e) (plus_minus_sum e)
        (amount_of_cards_lower_than_15 e)
        v (folded_cards e) (np_random e) (natural e) (sab e).

Definition set_folded_cards (v : list Z) (e : env) : env :=
  mkEnv (dealer e) (player e) (plus_minus_sum e)
        (amount_of_cards_lower_than_15 e)
        (deck e) v (np_random e) (natural e) (sab e).

Definition set_np_random (v : RandomState) (e : env) : env :=
  mkEnv (dealer e) (player e) (plus_minus_sum e)
        (amount_of_cards_lower_than_15 e)
        (deck e) (folded_cards e) v (natural e) (sab e).

(** ** The monad of methods *)

Inductive exn : Type :=
  | AssertionError
  | AttributeError
  | TypeError
  | ValueError
  | KeyError
  | IndexError
  | UnboundLocalError.

Inductive outcome (A : Type) : Type :=
  | Ret (a : A)
  | Raise (x : exn)
  | Diverge.

Arguments Ret {A} a.
Arguments Raise {A} x.
Arguments Diverge {A}.

Definition M (A : Type) : Type := env -> outcome A * env.

Definition ret {A} (a : A) : M A := fun e => (Ret a, e).

Definition bind {A B} (m : M A) (k : A -> M B) : M B :=
  fun e =>
    match m e with
    | (Ret a, e') => k a e'
    | (Raise x, e') => (Raise x, e')
    | (Diverge, e') => (Diverge, e')
    end.

Definition raise {A} (x : exn) : M A := fun e => (Raise x, e).

Definition diverge {A} : M A := fun e => (Diverge, e).

Definition gets {A} (f : env -> A) : M A := fun e => (Ret (f e), e).

Definition modify (f : env -> env) : M unit := fun e => (Ret tt, f e).

Definition when (b : bool) (m : M unit) : M unit := if b then m else ret tt.

Definition lift {A} (x : exn) (o : option A) : M A :=
  match o with
  | Some a => ret a
  | None => raise x
  end.

Declare Scope monad_scope.
Delimit Scope monad_scope with monad.
Notation "x <- m ;; k" := (bind m (fun x => k))
  (at level 61, m at next level, right associativity) : monad_scope.
Notation "m ;; k" := (bind m (fun _ => k))
  (at level 61, right associativity) : monad_scope.
Open Scope monad_scope.

(** ** Hand evaluation *)

(** [1 in hand and sum(hand) + 10 <= 21] *)
Definition _usable_ace (hand : list Z) : bool :=
  contains 1 hand && (sum hand + 10 <=? 21).

Definition _sum_hand (hand : list Z) : Z :=
  if _usable_ace hand then sum hand + 10 else sum hand.

Definition _is_bust (hand : list Z) : bool := _sum_hand hand >? 21.

Definition _score (hand : list Z) : Z :=
  if _is_bust hand then 0 else _sum_hand hand.

(** [sorted(hand) == [1, 10]] *)
Definition _is_natural (hand : list Z) : bool := list_eqb (sorted hand) [1; 10].

(** A hand attribute passed to one of the functions above: [None] makes
    [1 in hand] and [sorted(hand)] raise [TypeError]. *)
Definition hand_arg (h : env -> option (list Z)) : M (list Z) :=
  o <- gets h ;; lift TypeError o.

(** ** Count and shoe *)

Definition _get_plus_minus_value : M Z := gets plus_minus_sum.

Definition _get_card_plus_minus_cost (card : Z) : M Z :=
  lift KeyError (dict_get card plus_minus_compliance).

(** [self.plus_minus_sum += self._get_card_plus_minus_cost(card)] *)
Definition add_plus_minus (card : Z) : M unit :=
  s <- gets plus_minus_sum ;;
  w <- _get_card_plus_minus_cost card ;;
  modify (set_plus_minus_sum (s + w)).

(** The four assignments made when the flag is set. *)
Definition reshuffle (e : env) : env :=
  set_plus_minus_sum 0
    (set_amount_of_cards_lower_than_15 false
       (set_folded_cards [] (set_deck fresh_deck e))).

(** [int(np_random.choice(self.deck))] *)
Definition np_random_choice : M Z :=
  fun e =>
    match choice (np_random e) (deck e) with
    | None => (Raise ValueError, e)
    | Some (card, r) => (Ret card, set_np_random r e)
    end.

(** [self.deck.remove(card)] *)
Definition deck_remove (card : Z) : M unit :=
  d <- gets deck ;;
  d' <- lift ValueError (list_remove card d) ;;
  modify (set_deck d').

Definition _draw_card : M Z :=
  low <- gets amount_of_cards_lower_than_15 ;;
  when low (modify reshuffle) ;;
  card <- np_random_choice ;;
  deck_remove card ;;
  modify (fun e => set_folded_cards (folded_cards e ++ [card]) e) ;;
  n <- gets (fun e => length (deck e)) ;;
  when (n <? 15)%nat (modify (set_amount_of_cards_lower_than_15 true)) ;;
  ret card.

Definition _draw_hand : M (list Z) :=
  a <- _draw_card ;;
  b <- _draw_card ;;
  ret [a; b].

(** ** The episode *)

Definition observation : Type := Z * Z * bool * Z.

(** [hand[i]] on a list *)
Definition index (hand : list Z) (i : nat) : M Z :=
  lift IndexError (nth_error hand i).

Definition _get_obs : M observation :=
  p <- hand_arg player ;;
  d <- hand_arg dealer ;;
  up <- index d 0 ;;
  c <- _get_plus_minus_value ;;
  ret (_sum_hand p, up, _usable_ace p, c).

(** [self.player.append(card)]; on [None] the attribute lookup fails. *)
Definition player_append (card : Z) : M unit :=
  o <- gets player ;;
  p <- lift AttributeError o ;;
  modify (set_player (Some (p ++ [card]))).

Definition dealer_append (card : Z) : M unit :=
  o <- gets dealer ;;
  d <- lift AttributeError o ;;
  modify (set_dealer (Some (d ++ [card]))).

(** [while self._sum_hand(self.dealer) < 17: ...] *)
Fixpoint dealer_loop (fuel : nat) : M unit :=
  d <- hand_arg dealer ;;
  if _sum_hand d <? 17 then
    match fuel with
    | O => diverge
    | S fuel' =>
        card <- _draw_card ;;
        add_plus_minus card ;;
        dealer_append card ;;
        dealer_loop fuel'
    end
  else ret tt.

(** The [if self.sab and ... elif ...] statement that follows the
    computation of [reward]; the source has the same text after stick and
    after double. *)
Definition rule_variant (sab_ natural_ : bool) (p d : list Z) (reward : Q) : Q :=
  if sab_ && _is_natural p && negb (_is_natural d) then 1%Q
  else if negb sab_ && natural_ && _is_natural p && Qeq_bool reward 1
       then (3 # 2)%Q
       else reward.

(** [self.action_space.contains(action)] for [Discrete(3)] *)
Definition action_space_contains (action : Z) : bool :=
  (0 <=? action) && (action <? 3).

Definition assert (b : bool) : M unit :=
  if b then ret tt else raise AssertionError.

(** [step(action)] returns [(observation, reward, done, {})]; the empty
    info dictionary is left out. [fuel] bounds the iterations of the
    dealer's loop. *)
Definition step (fuel : nat) (action : Z) : M (observation * Q * bool) :=
  assert (action_space_contains action) ;;
  rd <-
    (if action =? 1 then
       card <- _draw_card ;;
       add_plus_minus card ;;
       player_append card ;;
       p <- hand_arg player ;;
       if _is_bust p then ret ((-1)%Q, true) else ret (0%Q, false)
     else if action =? 0 then
       dealer_loop fuel ;;
       p <- hand_arg player ;;
       d <- hand_arg dealer ;;
       s <- gets sab ;;
       n <- gets natural ;;
       ret (rule_variant s n p d (cmp (_score p) (_score d)), true)
     else if action =? 2 then
       card <- _draw_card ;;
       add_plus_minus card ;;
       player_append card ;;
       dealer_loop fuel ;;
       p <- hand_arg player ;;
       d <- hand_arg dealer ;;
       s <- gets sab ;;
       n <- gets natural ;;
       ret (rule_variant s n p d (2 * cmp (_score p) (_score d))%Q, true)
     else raise UnboundLocalError) ;;
  o <- _get_obs ;;
  ret (o, fst rd, snd rd).

Definition reset : M observation :=
  modify (set_amount_of_cards_lower_than_15 false) ;;
  modify (set_deck fresh_deck) ;;
  modify (set_folded_cards []) ;;
  modify (set_plus_minus_sum 0) ;;
  dealer_hand <- _draw_hand ;;
  d0 <- index dealer_hand 0 ;;
  add_plus_minus d0 ;;
  modify (set_dealer (Some dealer_hand)) ;;
  player_hand <- _draw_hand ;;
  p0 <- index player_hand 0 ;;
  add_plus_minus p0 ;;
  p1 <- index player_hand 1 ;;
  add_plus_minus p1 ;;
  modify (set_player (Some player_hand)) ;;
  _get_obs.

(** [__init__(natural, sab)]; [r] is the generator that [self.seed()]
    returns. *)
Definition init (natural_ sab_ : bool) (r : RandomState) : env :=
  mkEnv None None 0 false fresh_deck [] r natural_ sab_.

(** [seed(seed)] installs another generator. *)
Definition seed (r : RandomState) : M unit := modify (set_np_random r).

(** The states an environment object can be in between two calls of its
    methods. A call that raises leaves the object in the state reached at
    the exception. *)
Inductive reachable : env -> Prop :=
  | reach_init : forall n s r, reachable (init n s r)
  | reach_seed : forall e r, reachable e -> reachable (snd (seed r e))
  | reach_reset : forall e o e',
      reachable e -> reset e = (o, e') -> o <> Diverge -> reachable e'
  | reach_step : forall e fuel a o e',
      reachable e -> step fuel a e = (o, e') -> o <> Diverge -> reachable e'.

(** ** Vocabulary of the specifications *)

(** The ranks of the deck. *)
Definition valid_card (c : Z) : Prop := 1 <= c <= 10.

(** The weight of a card, for the statements: the dictionary entry, and 0
    for a key the dictionary lacks. *)
Definition weight (c : Z) : Z :=
  match dict_get c plus_minus_compliance with
  | Some w => w
  | None => 0
  end.

(** The shoe in which a draw samples: reshuffled when the flag is set. *)
Definition pre_draw (e : env) : env :=
  if amount_of_cards_lower_than_15 e then reshuffle e else e.

(** The invariant of the shoe: the flag tells whether fewer than 15 cards
    are left, and the deck holds between 14 and 52 cards of the ranks 1 to
    10. *)
Record shoe_ok (e : env) : Prop := mk_shoe_ok {
  shoe_flag :
    amount_of_cards_lower_than_15 e = (length (deck e) <? 15)%nat;
  shoe_size : (14 <= length (deck e) <= 52)%nat;
  shoe_cards : Forall valid_card (deck e)
}.

(** What a successful draw of [card] from [e] into [e'] establishes. *)
Record drew (e : env) (card : Z) (e' : env) : Prop := mk_drew {
  drew_eq : _draw_card e = (Ret card, e');
  drew_in : In card (deck (pre_draw e));
  drew_valid : valid_card card;
  drew_shoe : shoe_ok e';
  drew_size : S (length (deck e')) = length (deck (pre_draw e));
  drew_sum : plus_minus_sum e' = plus_minus_sum (pre_draw e);
  drew_folded : folded_cards e' = folded_cards (pre_draw e) ++ [card];
  drew_dealer : dealer e' = dealer e;
  drew_player : player e' = player e;
  drew_natural : natural e' = natural e;
  drew_sab : sab e' = sab e
}.

(** The state after [card], drawn into [e1], has been counted. *)
Definition counted (card : Z) (e1 : env) : env :=
  set_plus_minus_sum (plus_minus_sum e1 + weight card) e1.

(** The dealer, holding [d] in [e], has drawn [drawn] and stands in [e']. *)
Record played (e : env) (d : list Z) (drawn : list Z) (e' : env) : Prop :=
  mk_played {
  played_dealer : dealer e' = Some (d ++ drawn);
  played_valid : Forall valid_card drawn;
  played_stands : 17 <= _sum_hand (d ++ drawn);
  played_drawing : forall k, (k < length drawn)%nat ->
                             _sum_hand (d ++ firstn k drawn) < 17;
  played_shoe : shoe_ok e';
  played_player : player e' = player e;
  played_natural : natural e' = natural e;
  played_sab : sab e' = sab e
}.

(** The reward and the done flag of a hit that leaves the player with [p]. *)
Definition hit_reward (p : list Z) : Q := if _is_bust p then (-1)%Q else 0%Q.

(** The four assignments that open [reset]. *)
Definition reset_start (e : env) : env :=
  set_plus_minus_sum 0
    (set_folded_cards []
       (set_deck fresh_deck (set_amount_of_cards_lower_than_15 false e))).

(** What [reset] establishes, whatever the state it is called in. *)
Record dealt (e : env) (d0 d1 p0 p1 : Z) (e' : env) : Prop := mk_dealt {
  dealt_dealer : dealer e' = Some [d0; d1];
  dealt_player : player e' = Some [p0; p1];
  dealt_sum : plus_minus_sum e' = weight d0 + weight p0 + weight p1;
  dealt_deck : length (deck e') = 48%nat;
  dealt_folded : folded_cards e' = [d0; d1; p0; p1];
  dealt_flag : amount_of_cards_lower_than_15 e' = false;
  dealt_shoe : shoe_ok e';
  dealt_valid : Forall valid_card [d0; d1; p0; p1];
  dealt_natural : natural e' = natural e;
  dealt_sab : sab e' = sab e
}.

(** The hands are both [None], before the first [reset], or both dealt,
    with two cards or more each. *)
Inductive hands_ok (e : env) : Prop :=
  | hands_none : dealer e = None -> player e = None -> hands_ok e
  | hands_some : forall d p,
      dealer e = Some d -> player e = Some p ->
      (2 <= length d)%nat -> (2 <= length p)%nat ->
      Forall valid_card d -> Forall valid_card p -> hands_ok e.

(** The invariant of the object. *)
Record inv (e : env) : Prop := mk_inv {
  inv_shoe : shoe_ok e;
  inv_hands : hands_ok e
}.

(** A sequence of calls of [step], whatever they return. *)
Fixpoint run (fuel : nat) (actions : list Z) (e : env) : env :=
  match actions with
  | [] => e
  | a :: rest => run fuel rest (snd (step fuel a e))
  end.

(** Generators for the examples: one that always picks the first card of
    the deck, and one that follows a list of indices. *)
Definition const_rng (k : nat) : RandomState := mkRandomState (fun _ => k) 0.

Definition script_rng (l : list nat) : RandomState :=
  mkRandomState (fun i => nth i l 0%nat) 0.

(** The part of a card's weight that lowers the count, and the part that
    raises it. *)
Definition high_part (c : Z) : Z := Z.max 0 (- weight c).

Definition low_part (c : Z) : Z := Z.max 0 (weight c).

(** The number of cards of weight -1, and of weight +1, in a list. *)
Definition highs (l : list Z) : Z := sum (map high_part l).

Definition lows (l : list Z) : Z := sum (map low_part l).

(** The books of the shoe: the deck and the discard list together are the
    52 cards, and the count lies between minus the number of discarded high
    cards and the number of discarded low cards, with the margins [a] and
    [b] for cards that are discarded but not counted yet. *)
Record ledger (a b : Z) (e : env) : Prop := mk_ledger {
  ledger_perm : Permutation (deck e ++ folded_cards e) fresh_deck;
  ledger_low : - highs (folded_cards e) + a <= plus_minus_sum e;
  ledger_high : plus_minus_sum e <= lows (folded_cards e) - b
}.

(** The dealer's hand, once dealt, totals 26 at most. *)
Definition dealer_bound (e : env) : Prop :=
  forall d, dealer e = Some d -> _sum_hand d <= 26.

(** Closes a goal from an equation [Q] between two different rational
    constants. *)
Ltac q_absurd Q := unfold Qeq in Q; simpl in Q; lia.

(** ** Basic facts about the list operations *)

Lemma fresh_deck_length : length fresh_deck = 52%nat.
Proof. reflexivity. Qed.

Lemma fresh_deck_valid : Forall valid_card fresh_deck.
Proof. unfold valid_card. repeat constructor; lia. Qed.

Lemma sum_cons (x : Z) (l : list Z) : sum (x :: l) = x + sum l.
Proof.
  unfold sum. simpl.
  assert (G : forall l a b, fold_left Z.add l (a + b) = a + fold_left Z.add l b).
  { clear. induction l as [|y l IH]; intros a b; simpl; [reflexivity|].
    rewrite <- Z.add_assoc. apply IH. }
  rewrite <- (G l x 0). f_equal. lia.
Qed.

Lemma sum_app (l1 l2 : list Z) : sum (l1 ++ l2) = sum l1 + sum l2.
Proof.
  induction l1 as [|x l1 IH]; [reflexivity|].
  simpl app. rewrite !sum_cons, IH. lia.
Qed.

Lemma sum_valid_lower (l : list Z) :
  Forall valid_card l -> Z.of_nat (length l) <= sum l.
Proof.
  induction 1 as [|x l Hx _ IH]; [reflexivity|].
  rewrite sum_cons. unfold valid_card in Hx. simpl length. lia.
Qed.

Lemma sum_le_sum_hand (l : list Z) : sum l <= _sum_hand l.
Proof. unfold _sum_hand. destruct (_usable_ace l); lia. Qed.

Lemma list_remove_In (x : Z) (l : list Z) :
  In x l -> exists l', list_remove x l = Some l'.
Proof.
  induction l as [|y l IH]; simpl; [tauto|].
  intros H. destruct (Z.eqb_spec x y) as [->|N]; [eauto|].
  destruct H as [H|H]; [congruence|].
  destruct (IH H) as [l' ->]. eauto.
Qed.

Lemma list_remove_length (x : Z) (l l' : list Z) :
  list_remove x l = Some l' -> length l = S (length l').
Proof.
  revert l'. induction l as [|y l IH]; simpl; intros l' H; [discriminate|].
  destruct (x =? y); [congruence|].
  destruct (list_remove x l) as [r|]; [|discriminate].
  injection H as <-. simpl. f_equal. apply IH. reflexivity.
Qed.

Lemma list_remove_Forall (P : Z -> Prop) (x : Z) (l l' : list Z) :
  list_remove x l = Some l' -> Forall P l -> Forall P l'.
Proof.
  revert l'. induction l as [|y l IH]; simpl; intros l' H F; [discriminate|].
  inversion F as [|? ? Py Fl]; subst.
  destruct (x =? y); [congruence|].
  destruct (list_remove x l) as [r|]; [|discriminate].
  injection H as <-. constructor; auto.
Qed.

Lemma choice_In (r : RandomState) (a : list Z) :
  a <> [] -> exists c r', choice r a = Some (c, r') /\ In c a.
Proof.
  destruct a as [|c a]; [congruence|]. intros _.
  unfold choice. eexists _, _. split; [reflexivity|].
  apply nth_In. apply Nat.mod_upper_bound. discriminate.
Qed.

Lemma cost_valid (c : Z) :
  valid_card c ->
  exists w, dict_get c plus_minus_compliance = Some w /\ -1 <= w <= 1.
Proof.
  unfold valid_card. intros H.
  assert (C : c = 1 \/ c = 2 \/ c = 3 \/ c = 4 \/ c = 5 \/ c = 6 \/ c = 7
              \/ c = 8 \/ c = 9 \/ c = 10) by lia.
  repeat (destruct C as [->|C]; [eexists; split; [reflexivity|lia]|]).
  subst. eexists; split; [reflexivity|lia].
Qed.

(** ** One draw *)

Lemma draw_card_eq (e : env) :
  _draw_card e =
  let e1 := pre_draw e in
  match choice (np_random e1) (deck e1) with
  | None => (Raise ValueError, e1)
  | Some (card, r) =>
      match list_remove card (deck e1) with
      | None => (Raise ValueError, set_np_random r e1)
      | Some dk =>
          (Ret card,
           mkEnv (dealer e1) (player e1) (plus_minus_sum e1)
                 (length dk <? 15)%nat dk (folded_cards e1 ++ [card]) r
                 (natural e1) (sab e1))
      end
  end.
Proof.
  unfold _draw_card, deck_remove, np_random_choice, pre_draw.
  unfold bind, gets, when, modify, lift, ret, raise.
  destruct (amount_of_cards_lower_than_15 e) eqn:F; cbv beta iota zeta.
  - change (np_random (reshuffle e)) with (np_random e).
    change (deck (reshuffle e)) with fresh_deck.
    destruct (choice (np_random e) fresh_deck) as [[card rs]|];
      [|reflexivity].
    change (deck (set_np_random rs (reshuffle e))) with fresh_deck.
    destruct (list_remove card fresh_deck) as [dk|]; [|reflexivity].
    cbv beta iota.
    change (deck (set_folded_cards _ (set_deck dk _))) with dk.
    destruct (length dk <? 15)%nat; reflexivity.
  - destruct (choice (np_random e) (deck e)) as [[card rs]|];
      [|reflexivity].
    change (deck (set_np_random rs e)) with (deck e).
    destruct (list_remove card (deck e)) as [dk|]; [|reflexivity].
    cbv beta iota.
    change (deck (set_folded_cards _ (set_deck dk _))) with dk.
    destruct (length dk <? 15)%nat;
      unfold set_amount_of_cards_lower_than_15, set_folded_cards, set_deck,
        set_np_random; cbn; rewrite ?F; reflexivity.
Qed.

Lemma pre_draw_size (e : env) :
  shoe_ok e -> (15 <= length (deck (pre_draw e)) <= 52)%nat.
Proof.
  intros [F S _]. unfold pre_draw.
  destruct (amount_of_cards_lower_than_15 e).
  - cbn. lia.
  - symmetry in F. apply Nat.ltb_ge in F. lia.
Qed.

Lemma pre_draw_valid (e : env) :
  shoe_ok e -> Forall valid_card (deck (pre_draw e)).
Proof.
  intros [_ _ C]. unfold pre_draw.
  destruct (amount_of_cards_lower_than_15 e); [apply fresh_deck_valid|exact C].
Qed.

Lemma pre_draw_frame (e : env) :
  dealer (pre_draw e) = dealer e /\ player (pre_draw e) = player e /\
  natural (pre_draw e) = natural e /\ sab (pre_draw e) = sab e /\
  np_random (pre_draw e) = np_random e.
Proof.
  unfold pre_draw. destruct (amount_of_cards_lower_than_15 e); cbn; tauto.
Qed.

Lemma draw_card_ok (e : env) :
  shoe_ok e -> exists card e', drew e card e'.
Proof.
  intros H.
  pose proof (pre_draw_size e H) as S1.
  pose proof (pre_draw_valid e H) as V1.
  destruct (pre_draw_frame e) as (Fd & Fp & Fn & Fs & _).
  assert (NE : deck (pre_draw e) <> []).
  { intros E. rewrite E in S1. simpl in S1. lia. }
  destruct (choice_In (np_random (pre_draw e)) _ NE) as (card & r & C & I).
  destruct (list_remove_In _ _ I) as [dk R].
  pose proof (list_remove_length _ _ _ R) as L.
  exists card. eexists. split.
  - rewrite draw_card_eq. cbv zeta. rewrite C, R. reflexivity.
  - exact I.
  - rewrite Forall_forall in V1. auto.
  - split; cbn.
    + reflexivity.
    + lia.
    + eapply list_remove_Forall; eauto.
  - cbn. lia.
  - reflexivity.
  - reflexivity.
  - exact Fd.
  - exact Fp.
  - exact Fn.
  - exact Fs.
Qed.

Lemma pre_draw_id (e : env) :
  shoe_ok e -> (15 <= length (deck e))%nat -> pre_draw e = e.
Proof.
  intros [F _ _] L. unfold pre_draw. rewrite F.
  destruct (Nat.ltb_spec (length (deck e)) 15); [lia|reflexivity].
Qed.

Lemma pre_draw_reshuffle (e : env) :
  shoe_ok e -> (length (deck e) < 15)%nat -> pre_draw e = reshuffle e.
Proof.
  intros [F _ _] L. unfold pre_draw. rewrite F.
  destruct (Nat.ltb_spec (length (deck e)) 15); [reflexivity|lia].
Qed.

(** ** Sequencing *)

Lemma bind_Ret {A B} (m : M A) (k : A -> M B) (e e' : env) (a : A) :
  m e = (Ret a, e') -> bind m k e = k a e'.
Proof. intros H. unfold bind. rewrite H. reflexivity. Qed.

Lemma bind_Raise {A B} (m : M A) (k : A -> M B) (e e' : env) (x : exn) :
  m e = (Raise x, e') -> bind m k e = (Raise x, e').
Proof. intros H. unfold bind. rewrite H. reflexivity. Qed.

Lemma bind_modify {B} (f : env -> env) (k : unit -> M B) (e : env) :
  bind (modify f) k e = k tt (f e).
Proof. reflexivity. Qed.

Lemma bind_index {B} (l : list Z) (i : nat) (x : Z) (k : Z -> M B) (e : env) :
  nth_error l i = Some x -> bind (index l i) k e = k x e.
Proof. intros H. unfold bind, index, lift. rewrite H. reflexivity. Qed.

Lemma add_plus_minus_ok (card : Z) (e : env) :
  valid_card card ->
  add_plus_minus card e =
  (Ret tt, set_plus_minus_sum (plus_minus_sum e + weight card) e).
Proof.
  intros V. destruct (cost_valid card V) as (w & G & _).
  unfold add_plus_minus, _get_card_plus_minus_cost, weight, bind, gets, lift,
    modify, ret.
  rewrite G. reflexivity.
Qed.

Lemma weight_bounds (card : Z) : -1 <= weight card <= 1.
Proof.
  unfold weight.
  destruct (dict_get card plus_minus_compliance) as [w|] eqn:G; [|lia].
  unfold plus_minus_compliance in G. simpl in G.
  repeat match type of G with
         | (if ?b then _ else _) = _ => destruct b
         end; inversion G; lia.
Qed.

Lemma counted_shoe (card : Z) (e : env) : shoe_ok e -> shoe_ok (counted card e).
Proof. intros [F S C]. split; assumption. Qed.

Lemma set_dealer_shoe (h : option (list Z)) (e : env) :
  shoe_ok e -> shoe_ok (set_dealer h e).
Proof. intros [F S C]. split; assumption. Qed.

Lemma set_player_shoe (h : option (list Z)) (e : env) :
  shoe_ok e -> shoe_ok (set_player h e).
Proof. intros [F S C]. split; assumption. Qed.

(** [card = draw; count; self.dealer.append(card)] *)
Lemma deal_dealer (e : env) (d : list Z) :
  shoe_ok e -> dealer e = Some d ->
  exists card e1,
    drew e card e1 /\
    forall B (k : M B),
      (card <- _draw_card ;; add_plus_minus card ;; dealer_append card ;; k) e
      = k (set_dealer (Some (d ++ [card])) (counted card e1)).
Proof.
  intros H D. destruct (draw_card_ok e H) as (card & e1 & W).
  exists card, e1. split; [exact W|]. intros B k.
  rewrite (bind_Ret _ _ _ _ _ (drew_eq _ _ _ W)).
  rewrite (bind_Ret _ _ _ _ _ (add_plus_minus_ok card e1 (drew_valid _ _ _ W))).
  unfold dealer_append, bind, gets, lift, modify, ret. cbn.
  rewrite (drew_dealer _ _ _ W), D. reflexivity.
Qed.

(** [card = draw; count; self.player.append(card)] *)
Lemma deal_player (e : env) (p : list Z) :
  shoe_ok e -> player e = Some p ->
  exists card e1,
    drew e card e1 /\
    forall B (k : M B),
      (card <- _draw_card ;; add_plus_minus card ;; player_append card ;; k) e
      = k (set_player (Some (p ++ [card])) (counted card e1)).
Proof.
  intros H P. destruct (draw_card_ok e H) as (card & e1 & W).
  exists card, e1. split; [exact W|]. intros B k.
  rewrite (bind_Ret _ _ _ _ _ (drew_eq _ _ _ W)).
  rewrite (bind_Ret _ _ _ _ _ (add_plus_minus_ok card e1 (drew_valid _ _ _ W))).
  unfold player_append, bind, gets, lift, modify, ret. cbn.
  rewrite (drew_player _ _ _ W), P. reflexivity.
Qed.

(** The same sequence before any [reset]: the card is drawn and counted,
    then the append fails on [None]. *)
Lemma deal_player_None (e : env) :
  shoe_ok e -> player e = None ->
  exists card e1,
    drew e card e1 /\
    forall B (k : M B),
      (card <- _draw_card ;; add_plus_minus card ;; player_append card ;; k) e
      = (Raise AttributeError, counted card e1).
Proof.
  intros H P. destruct (draw_card_ok e H) as (card & e1 & W).
  exists card, e1. split; [exact W|]. intros B k.
  rewrite (bind_Ret _ _ _ _ _ (drew_eq _ _ _ W)).
  rewrite (bind_Ret _ _ _ _ _ (add_plus_minus_ok card e1 (drew_valid _ _ _ W))).
  unfold player_append, bind, gets, lift, modify, ret, raise. cbn.
  rewrite (drew_player _ _ _ W), P. reflexivity.
Qed.

(** ** The dealer's loop *)

Lemma dealer_loop_unfold (fuel : nat) (e : env) (d : list Z) :
  dealer e = Some d ->
  dealer_loop fuel e =
  if _sum_hand d <? 17 then
    match fuel with
    | O => (Diverge, e)
    | S fuel' =>
        (card <- _draw_card ;; add_plus_minus card ;; dealer_append card ;;
         dealer_loop fuel') e
    end
  else (Ret tt, e).
Proof.
  intros D. destruct fuel; simpl; unfold hand_arg, bind, gets, lift, ret;
    rewrite D; destruct (_sum_hand d <? 17); reflexivity.
Qed.

Lemma dealer_loop_ok (fuel : nat) :
  forall (e : env) (d : list Z),
    shoe_ok e -> dealer e = Some d -> Forall valid_card d ->
    17 <= Z.of_nat fuel + sum d ->
    exists drawn e',
      dealer_loop fuel e = (Ret tt, e') /\ played e d drawn e'.
Proof.
  induction fuel as [|fuel IH]; intros e d H D V F;
    rewrite (dealer_loop_unfold _ e d D);
    pose proof (sum_le_sum_hand d) as LE;
    destruct (Z.ltb_spec (_sum_hand d) 17) as [Lt|Ge].
  - simpl in F. lia.
  - exists [], e. split; [reflexivity|].
    split; rewrite ?app_nil_r; auto. simpl. intros k K. lia.
  - destruct (deal_dealer e d H D) as (card & e1 & W & K). rewrite K.
    set (e2 := set_dealer (Some (d ++ [card])) (counted card e1)).
    assert (H2 : shoe_ok e2).
    { apply set_dealer_shoe, counted_shoe, (drew_shoe _ _ _ W). }
    assert (V2 : Forall valid_card (d ++ [card])).
    { apply Forall_app. split; [exact V|].
      constructor; [exact (drew_valid _ _ _ W)|constructor]. }
    assert (F2 : 17 <= Z.of_nat fuel + sum (d ++ [card])).
    { rewrite sum_app, sum_cons. pose proof (drew_valid _ _ _ W) as [? ?].
      change (sum []) with 0. lia. }
    destruct (IH e2 (d ++ [card]) H2 eq_refl V2 F2) as (drawn & e' & E & P).
    exists (card :: drawn), e'. split; [exact E|].
    destruct P as [Pd Pv Ps Pk Ph Pp Pn Pb].
    split.
    + rewrite Pd, <- app_assoc. reflexivity.
    + constructor; [exact (drew_valid _ _ _ W)|exact Pv].
    + rewrite <- app_assoc in Ps. exact Ps.
    + intros [|k] Hk; simpl firstn.
      * rewrite app_nil_r. exact Lt.
      * simpl in Hk. specialize (Pk k ltac:(lia)).
        rewrite <- app_assoc in Pk. exact Pk.
    + exact Ph.
    + rewrite Pp. cbn. exact (drew_player _ _ _ W).
    + rewrite Pn. cbn. exact (drew_natural _ _ _ W).
    + rewrite Pb. cbn. exact (drew_sab _ _ _ W).
  - exists [], e. split; [reflexivity|].
    split; rewrite ?app_nil_r; auto. simpl. intros k K. lia.
Qed.

(** A dealer who already holds 17 or more does not draw. *)
Lemma dealer_loop_stand (fuel : nat) (e : env) (d : list Z) :
  dealer e = Some d -> 17 <= _sum_hand d -> dealer_loop fuel e = (Ret tt, e).
Proof.
  intros D G. rewrite (dealer_loop_unfold _ e d D).
  destruct (Z.ltb_spec (_sum_hand d) 17); [lia|reflexivity].
Qed.

(** A dealer below 17 draws at least one card from the shoe. *)
Lemma played_below (e : env) (d drawn : list Z) (e' : env) :
  played e d drawn e' -> _sum_hand d < 17 -> drawn <> [].
Proof.
  intros P L ->. pose proof (played_stands _ _ _ _ P) as S.
  rewrite app_nil_r in S. lia.
Qed.

(** More fuel does not change the outcome of a loop that ended. *)
Lemma dealer_loop_mono (fuel : nat) :
  forall (e : env) (d : list Z) (o : outcome unit) (e' : env),
    shoe_ok e -> dealer e = Some d ->
    dealer_loop fuel e = (o, e') -> o <> Diverge ->
    forall k, dealer_loop (fuel + k) e = (o, e').
Proof.
  induction fuel as [|fuel IH]; intros e d o e' H D E N k;
    rewrite (dealer_loop_unfold _ e d D) in E;
    rewrite (dealer_loop_unfold _ e d D);
    destruct (_sum_hand d <? 17); try exact E.
  - inversion E; subst. congruence.
  - simpl Nat.add. cbv iota.
    destruct (deal_dealer e d H D) as (card & e1 & W & K).
    rewrite K in E |- *.
    apply (IH _ (d ++ [card]) o e'); [|reflexivity|exact E|exact N].
    apply set_dealer_shoe, counted_shoe, (drew_shoe _ _ _ W).
Qed.

(** ** Naturals *)

Lemma insert_sorted_length (x : Z) (l : list Z) :
  length (insert_sorted x l) = S (length l).
Proof.
  induction l as [|y l IH]; simpl; [reflexivity|].
  destruct (x <=? y); simpl; congruence.
Qed.

Lemma sorted_length (l : list Z) : length (sorted l) = length l.
Proof.
  induction l as [|x l IH]; simpl; [reflexivity|].
  rewrite insert_sorted_length. congruence.
Qed.

Lemma list_eqb_eq (l1 l2 : list Z) : list_eqb l1 l2 = true <-> l1 = l2.
Proof.
  revert l2. induction l1 as [|x l1 IH]; intros [|y l2]; simpl;
    try (split; [discriminate|congruence]); [tauto|].
  rewrite andb_true_iff, Z.eqb_eq, IH. split.
  - intros [-> ->]. reflexivity.
  - intros E. inversion E. auto.
Qed.

Lemma is_natural_length (h : list Z) :
  _is_natural h = true -> length h = 2%nat.
Proof.
  unfold _is_natural. rewrite list_eqb_eq. intros E.
  rewrite <- sorted_length, E. reflexivity.
Qed.

Lemma is_natural_iff (h : list Z) :
  _is_natural h = true <-> h = [1; 10] \/ h = [10; 1].
Proof.
  split.
  - intros N. pose proof (is_natural_length h N) as L.
    destruct h as [|a [|b [|c h]]]; try discriminate L.
    unfold _is_natural, sorted in N. simpl in N.
    destruct (Z.leb_spec a b); simpl in N;
      rewrite !andb_true_iff, !Z.eqb_eq in N; destruct N as (? & ? & _);
      subst; auto.
  - intros [->| ->]; reflexivity.
Qed.

Lemma not_natural_after_append (p : list Z) (card : Z) :
  (2 <= length p)%nat -> _is_natural (p ++ [card]) = false.
Proof.
  intros L. destruct (_is_natural (p ++ [card])) eqn:N; [|reflexivity].
  apply is_natural_length in N. rewrite length_app in N. simpl in N. lia.
Qed.

(** ** The three actions *)

Lemma get_obs_ok (e : env) (p d : list Z) (up : Z) :
  player e = Some p -> dealer e = Some d -> nth_error d 0 = Some up ->
  _get_obs e = (Ret (_sum_hand p, up, _usable_ace p, plus_minus_sum e), e).
Proof.
  intros P D U.
  unfold _get_obs, hand_arg, index, _get_plus_minus_value, bind, gets, lift, ret.
  rewrite P, D, U. reflexivity.
Qed.

Lemma step_bad_action (fuel : nat) (a : Z) (e : env) :
  action_space_contains a = false -> step fuel a e = (Raise AssertionError, e).
Proof. intros C. unfold step. rewrite C. reflexivity. Qed.

Lemma action_cases (a : Z) :
  action_space_contains a = true -> a = 0 \/ a = 1 \/ a = 2.
Proof.
  unfold action_space_contains. rewrite andb_true_iff, Z.leb_le, Z.ltb_lt. lia.
Qed.

Lemma step_hit_eq (fuel : nat) (e : env) :
  step fuel 1 e =
  (rd <- (card <- _draw_card ;; add_plus_minus card ;; player_append card ;;
          p <- hand_arg player ;;
          if _is_bust p then ret ((-1)%Q, true) else ret (0%Q, false)) ;;
   o <- _get_obs ;; ret (o, fst rd, snd rd)) e.
Proof. reflexivity. Qed.

Lemma step_stick_eq (fuel : nat) (e : env) :
  step fuel 0 e =
  (rd <- (dealer_loop fuel ;;
          p <- hand_arg player ;;
          d <- hand_arg dealer ;;
          s <- gets sab ;;
          n <- gets natural ;;
          ret (rule_variant s n p d (cmp (_score p) (_score d)), true)) ;;
   o <- _get_obs ;; ret (o, fst rd, snd rd)) e.
Proof. reflexivity. Qed.

Lemma step_double_eq (fuel : nat) (e : env) :
  step fuel 2 e =
  (rd <- (card <- _draw_card ;; add_plus_minus card ;; player_append card ;;
          dealer_loop fuel ;;
          p <- hand_arg player ;;
          d <- hand_arg dealer ;;
          s <- gets sab ;;
          n <- gets natural ;;
          ret (rule_variant s n p d (2 * cmp (_score p) (_score d))%Q, true)) ;;
   o <- _get_obs ;; ret (o, fst rd, snd rd)) e.
Proof. reflexivity. Qed.

Lemma step_hit_ok (fuel : nat) (e : env) (p d : list Z) (up : Z) :
  shoe_ok e -> player e = Some p -> dealer e = Some d ->
  nth_error d 0 = Some up ->
  exists card e1,
    drew e card e1 /\
    step fuel 1 e =
    (Ret (_sum_hand (p ++ [card]), up, _usable_ace (p ++ [card]),
          plus_minus_sum e1 + weight card,
          hit_reward (p ++ [card]), _is_bust (p ++ [card])),
     set_player (Some (p ++ [card])) (counted card e1)).
Proof.
  intros H P D U.
  destruct (deal_player e p H P) as (card & e1 & W & K).
  exists card, e1. split; [exact W|].
  rewrite step_hit_eq. unfold bind at 1. rewrite K.
  set (e2 := set_player (Some (p ++ [card])) (counted card e1)).
  assert (D2 : dealer e2 = Some d) by (cbn; rewrite (drew_dealer _ _ _ W); exact D).
  unfold hand_arg, bind, gets, lift, ret.
  change (player e2) with (Some (p ++ [card])). cbv beta iota.
  unfold hit_reward.
  destruct (_is_bust (p ++ [card])); cbv beta iota;
    rewrite (get_obs_ok e2 (p ++ [card]) d up eq_refl D2 U); reflexivity.
Qed.

Lemma step_stick_ok (fuel : nat) (e : env) (p d : list Z) (up : Z) :
  shoe_ok e -> player e = Some p -> dealer e = Some d ->
  Forall valid_card d -> nth_error d 0 = Some up ->
  17 <= Z.of_nat fuel + sum d ->
  exists drawn e',
    played e d drawn e' /\
    dealer_loop fuel e = (Ret tt, e') /\
    step fuel 0 e =
    (Ret (_sum_hand p, up, _usable_ace p, plus_minus_sum e',
          rule_variant (sab e) (natural e) p (d ++ drawn)
            (cmp (_score p) (_score (d ++ drawn))),
          true),
     e').
Proof.
  intros H P D V U F.
  destruct (dealer_loop_ok fuel e d H D V F) as (drawn & e' & E & L).
  exists drawn, e'. split; [exact L|]. split; [exact E|].
  destruct L as [Ld _ _ _ _ Lp Ln Ls]. rewrite P in Lp.
  assert (U' : nth_error (d ++ drawn) 0 = Some up).
  { destruct d; [discriminate U|exact U]. }
  rewrite step_stick_eq. unfold bind at 1. unfold bind at 1. rewrite E.
  unfold hand_arg, bind, gets, lift, ret. rewrite Lp, Ld. cbv beta iota.
  rewrite (get_obs_ok e' p (d ++ drawn) up Lp Ld U'), Ln, Ls. reflexivity.
Qed.

Lemma step_double_ok (fuel : nat) (e : env) (p d : list Z) (up : Z) :
  shoe_ok e -> player e = Some p -> dealer e = Some d ->
  Forall valid_card d -> nth_error d 0 = Some up ->
  17 <= Z.of_nat fuel + sum d ->
  exists card e1 drawn e',
    drew e card e1 /\
    played (set_player (Some (p ++ [card])) (counted card e1)) d drawn e' /\
    step fuel 2 e =
    (Ret (_sum_hand (p ++ [card]), up, _usable_ace (p ++ [card]),
          plus_minus_sum e',
          rule_variant (sab e) (natural e) (p ++ [card]) (d ++ drawn)
            (2 * cmp (_score (p ++ [card])) (_score (d ++ drawn)))%Q,
          true),
     e').
Proof.
  intros H P D V U F.
  destruct (deal_player e p H P) as (card & e1 & W & K).
  set (e2 := set_player (Some (p ++ [card])) (counted card e1)) in *.
  assert (H2 : shoe_ok e2).
  { apply set_player_shoe, counted_shoe, (drew_shoe _ _ _ W). }
  assert (D2 : dealer e2 = Some d) by (cbn; rewrite (drew_dealer _ _ _ W); exact D).
  destruct (dealer_loop_ok fuel e2 d H2 D2 V F) as (drawn & e' & E & L).
  exists card, e1, drawn, e'. split; [exact W|]. split; [exact L|].
  destruct L as [Ld _ _ _ _ Lp Ln Ls].
  change (player e2) with (Some (p ++ [card])) in Lp.
  assert (U' : nth_error (d ++ drawn) 0 = Some up).
  { destruct d; [discriminate U|exact U]. }
  rewrite step_double_eq. unfold bind at 1. rewrite K.
  unfold bind at 1. rewrite E.
  unfold hand_arg, bind, gets, lift, ret. rewrite Lp, Ld. cbv beta iota.
  rewrite (get_obs_ok e' _ (d ++ drawn) up Lp Ld U'), Ln, Ls.
  cbn. rewrite (drew_natural _ _ _ W), (drew_sab _ _ _ W). reflexivity.
Qed.

Lemma dealer_loop_None (fuel : nat) (e : env) :
  dealer e = None -> dealer_loop fuel e = (Raise TypeError, e).
Proof.
  intros D. destruct fuel; simpl; unfold hand_arg, bind, gets, lift, raise;
    rewrite D; reflexivity.
Qed.

(** Before any [reset] every call of [step] raises. *)
Lemma step_None (fuel : nat) (a : Z) (e : env) :
  shoe_ok e -> player e = None -> dealer e = None ->
  exists x e',
    step fuel a e = (Raise x, e') /\
    shoe_ok e' /\ player e' = None /\ dealer e' = None.
Proof.
  intros H P D.
  destruct (action_space_contains a) eqn:C.
  - destruct (deal_player_None e H P) as (card & e1 & W & K).
    assert (H1 : shoe_ok (counted card e1)) by
      apply counted_shoe, (drew_shoe _ _ _ W).
    assert (P1 : player (counted card e1) = None) by
      (cbn; rewrite (drew_player _ _ _ W); exact P).
    assert (D1 : dealer (counted card e1) = None) by
      (cbn; rewrite (drew_dealer _ _ _ W); exact D).
    destruct (action_cases a C) as [->|[->| ->]].
    + exists TypeError, e. split; [|auto].
      rewrite step_stick_eq. unfold bind at 1. unfold bind at 1.
      rewrite (dealer_loop_None fuel e D). reflexivity.
    + exists AttributeError, (counted card e1). split; [|auto].
      rewrite step_hit_eq. unfold bind at 1. rewrite K. reflexivity.
    + exists AttributeError, (counted card e1). split; [|auto].
      rewrite step_double_eq. unfold bind at 1. rewrite K. reflexivity.
  - exists AssertionError, e. split; [|auto]. apply step_bad_action, C.
Qed.

(** ** Reset *)

Lemma reset_eq (e : env) :
  reset e =
  (dealer_hand <- _draw_hand ;;
   d0 <- index dealer_hand 0 ;;
   add_plus_minus d0 ;;
   modify (set_dealer (Some dealer_hand)) ;;
   player_hand <- _draw_hand ;;
   p0 <- index player_hand 0 ;;
   add_plus_minus p0 ;;
   p1 <- index player_hand 1 ;;
   add_plus_minus p1 ;;
   modify (set_player (Some player_hand)) ;;
   _get_obs) (reset_start e).
Proof. reflexivity. Qed.

Lemma reset_start_shoe (e : env) : shoe_ok (reset_start e).
Proof.
  split; cbn.
  - reflexivity.
  - lia.
  - apply fresh_deck_valid.
Qed.

(** Two draws from a shoe that holds at least 16 cards: no reshuffle. *)
Lemma draw_hand_ok (e : env) :
  shoe_ok e -> (16 <= length (deck e))%nat ->
  exists a b e1 e2,
    drew e a e1 /\ drew e1 b e2 /\
    pre_draw e = e /\ pre_draw e1 = e1 /\
    _draw_hand e = (Ret [a; b], e2).
Proof.
  intros H L.
  destruct (draw_card_ok e H) as (a & e1 & W1).
  assert (I1 : pre_draw e = e) by (apply pre_draw_id; [exact H|lia]).
  pose proof (drew_size _ _ _ W1) as S1. rewrite I1 in S1.
  destruct (draw_card_ok e1 (drew_shoe _ _ _ W1)) as (b & e2 & W2).
  assert (I2 : pre_draw e1 = e1).
  { apply pre_draw_id; [exact (drew_shoe _ _ _ W1)|lia]. }
  exists a, b, e1, e2.
  split; [exact W1|]. split; [exact W2|]. split; [exact I1|].
  split; [exact I2|].
  unfold _draw_hand.
  rewrite (bind_Ret _ _ _ _ _ (drew_eq _ _ _ W1)).
  rewrite (bind_Ret _ _ _ _ _ (drew_eq _ _ _ W2)). reflexivity.
Qed.

Lemma reset_ok (e : env) :
  exists d0 d1 p0 p1 e',
    reset e =
    (Ret (_sum_hand [p0; p1], d0, _usable_ace [p0; p1],
          weight d0 + weight p0 + weight p1), e') /\
    dealt e d0 d1 p0 p1 e'.
Proof.
  set (e0 := reset_start e).
  pose proof (reset_start_shoe e) as H0. fold e0 in H0.
  assert (L0 : length (deck e0) = 52%nat) by reflexivity.
  destruct (draw_hand_ok e0 H0 ltac:(lia))
    as (d0 & d1 & e1 & e2 & W1 & W2 & I0 & I1 & E12).
  pose proof (drew_size _ _ _ W1) as S1. rewrite I0, L0 in S1.
  pose proof (drew_size _ _ _ W2) as S2. rewrite I1 in S2.
  set (e2' := set_dealer (Some [d0; d1]) (counted d0 e2)).
  assert (H2 : shoe_ok e2').
  { apply set_dealer_shoe, counted_shoe, (drew_shoe _ _ _ W2). }
  assert (L2 : length (deck e2') = 50%nat) by (cbn; lia).
  destruct (draw_hand_ok e2' H2 ltac:(lia))
    as (p0 & p1 & e3 & e4 & W3 & W4 & I2 & I3 & E34).
  pose proof (drew_size _ _ _ W3) as S3. rewrite I2, L2 in S3.
  pose proof (drew_size _ _ _ W4) as S4. rewrite I3 in S4.
  set (e' := set_player (Some [p0; p1]) (counted p1 (counted p0 e4))).
  assert (Sum : plus_minus_sum e' = weight d0 + weight p0 + weight p1).
  { cbn. rewrite (drew_sum _ _ _ W4), I3, (drew_sum _ _ _ W3), I2. cbn.
    rewrite (drew_sum _ _ _ W2), I1, (drew_sum _ _ _ W1), I0. cbn. lia. }
  assert (De : dealer e' = Some [d0; d1]).
  { cbn. rewrite (drew_dealer _ _ _ W4), (drew_dealer _ _ _ W3). reflexivity. }
  exists d0, d1, p0, p1, e'. split.
  - rewrite reset_eq. fold e0.
    rewrite (bind_Ret _ _ _ _ _ E12).
    rewrite (bind_index [d0; d1] 0 d0 _ _ eq_refl).
    rewrite (bind_Ret _ _ _ _ _ (add_plus_minus_ok d0 e2 (drew_valid _ _ _ W1))).
    rewrite bind_modify. fold (counted d0 e2). fold e2'.
    rewrite (bind_Ret _ _ _ _ _ E34).
    rewrite (bind_index [p0; p1] 0 p0 _ _ eq_refl).
    rewrite (bind_Ret _ _ _ _ _ (add_plus_minus_ok p0 e4 (drew_valid _ _ _ W3))).
    fold (counted p0 e4).
    rewrite (bind_index [p0; p1] 1 p1 _ _ eq_refl).
    rewrite (bind_Ret _ _ _ _ _
               (add_plus_minus_ok p1 (counted p0 e4) (drew_valid _ _ _ W4))).
    rewrite bind_modify. fold (counted p1 (counted p0 e4)). fold e'.
    rewrite (get_obs_ok e' [p0; p1] [d0; d1] d0 eq_refl De eq_refl), Sum.
    reflexivity.
  - split.
    + exact De.
    + reflexivity.
    + exact Sum.
    + cbn. lia.
    + cbn. rewrite (drew_folded _ _ _ W4), I3, (drew_folded _ _ _ W3), I2. cbn.
      rewrite (drew_folded _ _ _ W2), I1, (drew_folded _ _ _ W1), I0.
      reflexivity.
    + cbn. rewrite (shoe_flag _ (drew_shoe _ _ _ W4)).
      apply Nat.ltb_ge. lia.
    + apply set_player_shoe, counted_shoe, counted_shoe, (drew_shoe _ _ _ W4).
    + pose proof (drew_valid _ _ _ W1). pose proof (drew_valid _ _ _ W2).
      pose proof (drew_valid _ _ _ W3). pose proof (drew_valid _ _ _ W4).
      repeat (constructor; [assumption|]). constructor.
    + cbn. rewrite (drew_natural _ _ _ W4), (drew_natural _ _ _ W3). cbn.
      rewrite (drew_natural _ _ _ W2), (drew_natural _ _ _ W1). reflexivity.
    + cbn. rewrite (drew_sab _ _ _ W4), (drew_sab _ _ _ W3). cbn.
      rewrite (drew_sab _ _ _ W2), (drew_sab _ _ _ W1). reflexivity.
Qed.

(** ** The invariant of the object *)

Lemma upcard_exists (d : list Z) :
  (2 <= length d)%nat -> exists up, nth_error d 0 = Some up.
Proof. destruct d as [|up d]; simpl; [lia|eauto]. Qed.

(** [step] depends on the fuel through the dealer's loop only. *)
Lemma step_mono (fuel : nat) (a : Z) (e : env) (d p : list Z)
      (o : outcome (observation * Q * bool)) (e' : env) :
  shoe_ok e -> dealer e = Some d -> player e = Some p ->
  step fuel a e = (o, e') -> o <> Diverge ->
  forall k, step (fuel + k) a e = (o, e').
Proof.
  intros H D P E N k.
  destruct (action_space_contains a) eqn:C.
  - destruct (action_cases a C) as [->|[->| ->]].
    + rewrite step_stick_eq in E. rewrite step_stick_eq.
      unfold bind at 1 in E. unfold bind at 1 in E.
      unfold bind at 1. unfold bind at 1.
      destruct (dealer_loop fuel e) as [o1 e1] eqn:E1.
      assert (N1 : o1 <> Diverge).
      { intros ->. inversion E. subst. congruence. }
      rewrite (dealer_loop_mono fuel e d o1 e1 H D E1 N1 k). exact E.
    + rewrite step_hit_eq in E. rewrite step_hit_eq. exact E.
    + destruct (deal_player e p H P) as (card & e1 & W & K).
      rewrite step_double_eq in E. rewrite step_double_eq.
      unfold bind at 1 in E. rewrite K in E.
      unfold bind at 1. rewrite K.
      unfold bind at 1 in E. unfold bind at 1.
      set (e2 := set_player (Some (p ++ [card])) (counted card e1)) in *.
      destruct (dealer_loop fuel e2) as [o1 e3] eqn:E1.
      assert (N1 : o1 <> Diverge).
      { intros ->. inversion E. subst. congruence. }
      assert (H2 : shoe_ok e2).
      { apply set_player_shoe, counted_shoe, (drew_shoe _ _ _ W). }
      assert (D2 : dealer e2 = Some d).
      { cbn. rewrite (drew_dealer _ _ _ W). exact D. }
      rewrite (dealer_loop_mono fuel e2 d o1 e3 H2 D2 E1 N1 k). exact E.
  - rewrite (step_bad_action _ _ _ C) in E. rewrite (step_bad_action _ _ _ C).
    exact E.
Qed.

Lemma append_hand_ok (h : list Z) (card : Z) :
  (2 <= length h)%nat -> Forall valid_card h -> valid_card card ->
  (2 <= length (h ++ [card]))%nat /\ Forall valid_card (h ++ [card]).
Proof.
  intros L V C. split.
  - rewrite length_app. lia.
  - apply Forall_app. split; [exact V|]. constructor; [exact C|constructor].
Qed.

Lemma played_hand_ok (e : env) (d drawn : list Z) (e' : env) :
  played e d drawn e' -> (2 <= length d)%nat -> Forall valid_card d ->
  (2 <= length (d ++ drawn))%nat /\ Forall valid_card (d ++ drawn).
Proof.
  intros L Ld V. split.
  - rewrite length_app. lia.
  - apply Forall_app. split; [exact V|exact (played_valid _ _ _ _ L)].
Qed.

Lemma step_inv (fuel : nat) (a : Z) (e : env)
      (o : outcome (observation * Q * bool)) (e' : env) :
  inv e -> step fuel a e = (o, e') -> o <> Diverge -> inv e'.
Proof.
  intros [H [D P|d p D P Ld Lp Vd Vp]] E N.
  - destruct (step_None fuel a e H P D) as (x & e1 & E1 & H1 & P1 & D1).
    rewrite E1 in E. inversion E; subst.
    split; [exact H1|]. apply hands_none; assumption.
  - apply (step_mono fuel a e d p o e' H D P) with (k := 17%nat) in E;
      [|exact N].
    destruct (upcard_exists d Ld) as [up U].
    assert (F : 17 <= Z.of_nat (fuel + 17) + sum d).
    { pose proof (sum_valid_lower d Vd). lia. }
    destruct (action_space_contains a) eqn:C.
    + destruct (action_cases a C) as [->|[->| ->]].
      * destruct (step_stick_ok _ e p d up H P D Vd U F)
          as (drawn & e1 & L & _ & E1).
        rewrite E1 in E. inversion E; subst.
        destruct (played_hand_ok _ _ _ _ L Ld Vd) as [Ld' Vd'].
        split; [exact (played_shoe _ _ _ _ L)|].
        apply (hands_some _ (d ++ drawn) p); auto.
        -- exact (played_dealer _ _ _ _ L).
        -- rewrite (played_player _ _ _ _ L). exact P.
      * destruct (step_hit_ok (fuel + 17) e p d up H P D U)
          as (card & e1 & W & E1).
        rewrite E1 in E. inversion E; subst.
        destruct (append_hand_ok p card Lp Vp (drew_valid _ _ _ W)) as [Lp' Vp'].
        split.
        -- apply set_player_shoe, counted_shoe, (drew_shoe _ _ _ W).
        -- apply (hands_some _ d (p ++ [card])); auto.
           cbn. rewrite (drew_dealer _ _ _ W). exact D.
      * destruct (step_double_ok _ e p d up H P D Vd U F)
          as (card & e1 & drawn & e2 & W & L & E1).
        rewrite E1 in E. inversion E; subst.
        destruct (append_hand_ok p card Lp Vp (drew_valid _ _ _ W)) as [Lp' Vp'].
        destruct (played_hand_ok _ _ _ _ L Ld Vd) as [Ld' Vd'].
        split; [exact (played_shoe _ _ _ _ L)|].
        apply (hands_some _ (d ++ drawn) (p ++ [card])); auto.
        -- exact (played_dealer _ _ _ _ L).
        -- rewrite (played_player _ _ _ _ L). reflexivity.
    + rewrite (step_bad_action _ _ _ C) in E. inversion E; subst.
      split; [exact H|]. apply (hands_some _ d p); auto.
Qed.

Lemma dealt_inv (e : env) (d0 d1 p0 p1 : Z) (e' : env) :
  dealt e d0 d1 p0 p1 e' -> inv e'.
Proof.
  intros T. split; [exact (dealt_shoe _ _ _ _ _ _ T)|].
  pose proof (dealt_valid _ _ _ _ _ _ T) as V.
  inversion V as [|? ? V0 V']; subst. inversion V' as [|? ? V1 V'']; subst.
  apply (hands_some _ [d0; d1] [p0; p1]).
  - exact (dealt_dealer _ _ _ _ _ _ T).
  - exact (dealt_player _ _ _ _ _ _ T).
  - simpl. lia.
  - simpl. lia.
  - repeat (constructor; [assumption|]). constructor.
  - exact V''.
Qed.

Lemma init_inv (n s : bool) (r : RandomState) : inv (init n s r).
Proof.
  split.
  - split; cbn; [reflexivity|lia|apply fresh_deck_valid].
  - apply hands_none; reflexivity.
Qed.

Lemma reachable_inv (e : env) : reachable e -> inv e.
Proof.
  induction 1 as [n s r|e r _ IH|e o e' _ IH E N|e fuel a o e' _ IH E N].
  - apply init_inv.
  - destruct IH as [[F S C] Hh]. split; [split; assumption|].
    destruct Hh as [D P|d p D P Ld Lp Vd Vp];
      [apply hands_none|apply (hands_some _ d p)]; assumption.
  - destruct (reset_ok e) as (d0 & d1 & p0 & p1 & e1 & E1 & T).
    rewrite E1 in E. inversion E; subst.
    exact (dealt_inv _ _ _ _ _ _ T).
  - exact (step_inv fuel a e o e' IH E N).
Qed.

Lemma inv_in_play (e : env) (p d : list Z) :
  inv e -> player e = Some p -> dealer e = Some d ->
  shoe_ok e /\ (2 <= length d)%nat /\ (2 <= length p)%nat /\
  Forall valid_card d /\ Forall valid_card p.
Proof.
  intros [H [D0 P0|d' p' D0 P0 Ld Lp Vd Vp]] P D; [congruence|].
  rewrite D in D0. rewrite P in P0.
  injection D0 as <-. injection P0 as <-. auto.
Qed.

Lemma inv_dealer_of_player (e : env) (p : list Z) :
  inv e -> player e = Some p -> exists d, dealer e = Some d.
Proof.
  intros [_ [D0 P0|d' p' D0 P0 _ _ _ _]] P; [congruence|eauto].
Qed.

Lemma inv_player_of_dealer (e : env) (d : list Z) :
  inv e -> dealer e = Some d -> exists p, player e = Some p.
Proof.
  intros [_ [D0 P0|d' p' D0 P0 _ _ _ _]] D; [congruence|eauto].
Qed.

Lemma fuel_enough (fuel : nat) (d : list Z) :
  (17 <= fuel)%nat -> Forall valid_card d -> 17 <= Z.of_nat fuel + sum d.
Proof. intros F V. pose proof (sum_valid_lower d V). lia. Qed.

(** With the hands dealt, fuel 17 and an action of the action space, [step]
    returns. *)
Lemma step_returns (fuel : nat) (a : Z) (e : env) (p : list Z) :
  inv e -> player e = Some p -> (17 <= fuel)%nat ->
  action_space_contains a = true ->
  exists r e', step fuel a e = (Ret r, e').
Proof.
  intros I P F C.
  destruct (inv_dealer_of_player e p I P) as [d D].
  destruct (inv_in_play e p d I P D) as (H & Ld & Lp & Vd & Vp).
  destruct (upcard_exists d Ld) as [up U].
  pose proof (fuel_enough fuel d F Vd) as F'.
  destruct (action_cases a C) as [->|[->| ->]].
  - destruct (step_stick_ok fuel e p d up H P D Vd U F')
      as (drawn & e' & _ & _ & E). eauto.
  - destruct (step_hit_ok fuel e p d up H P D U) as (card & e1 & _ & E). eauto.
  - destruct (step_double_ok fuel e p d up H P D Vd U F')
      as (card & e1 & drawn & e' & _ & _ & E). eauto.
Qed.

Lemma step_total (fuel : nat) (a : Z) (e : env) :
  inv e -> (17 <= fuel)%nat -> fst (step fuel a e) <> Diverge.
Proof.
  intros I F.
  destruct (player e) as [p|] eqn:P.
  - destruct (action_space_contains a) eqn:C.
    + destruct (step_returns fuel a e p I P F C) as (r & e' & ->). discriminate.
    + rewrite (step_bad_action _ _ _ C). discriminate.
  - destruct I as [H [D0 P0|d' p' D0 P0 _ _ _ _]]; [|congruence].
    destruct (step_None fuel a e H P0 D0) as (x & e' & -> & _). discriminate.
Qed.

Lemma reachable_reset (e : env) : reachable e -> reachable (snd (reset e)).
Proof.
  intros R. destruct (reset_ok e) as (d0 & d1 & p0 & p1 & e' & E & _).
  rewrite E. apply (reach_reset e _ _ R E). discriminate.
Qed.

Lemma reachable_step (fuel : nat) (a : Z) (e : env) :
  reachable e -> (17 <= fuel)%nat -> reachable (snd (step fuel a e)).
Proof.
  intros R F. pose proof (step_total fuel a e (reachable_inv e R) F) as N.
  destruct (step fuel a e) as [o e'] eqn:E.
  exact (reach_step e fuel a o e' R E N).
Qed.

Lemma reachable_run (fuel : nat) (actions : list Z) :
  forall e, reachable e -> (17 <= fuel)%nat -> reachable (run fuel actions e).
Proof.
  induction actions as [|a rest IH]; intros e R F; simpl; [exact R|].
  apply IH; [apply reachable_step; assumption|exact F].
Qed.

(** * The running count at reset *)

(** C1, as stated, fails: with a generator that always picks the first card
    of the deck, [reset()] deals 1 and 2 to the dealer and 3 and 4 to the
    player; the count is then 1 = weight 1 + weight 3 + weight 4 and not
    the sum 2 of the four weights: the hole card 2 is not counted. *)
Lemma reset_skips_hole_card :
  let e' := snd (reset (init false false (const_rng 0))) in
  dealer e' = Some [1; 2] /\ player e' = Some [3; 4] /\
  plus_minus_sum e' = 1 /\
  plus_minus_sum e' <> weight 1 + weight 2 + weight 3 + weight 4.
Proof. vm_compute. repeat split; discriminate. Qed.

(** C1, amended: [reset()] returns in every state, and the count it leaves
    is the sum of the weights of three of the four dealt cards, all of the
    ranks 1 to 10: the dealer's first card and the player's two cards. *)
Theorem reset_counts_three_cards (e : env) :
  exists d0 d1 p0 p1 o e',
    reset e = (Ret o, e') /\
    dealer e' = Some [d0; d1] /\ player e' = Some [p0; p1] /\
    folded_cards e' = [d0; d1; p0; p1] /\
    Forall valid_card [d0; d1; p0; p1] /\
    plus_minus_sum e' = weight d0 + weight p0 + weight p1.
Proof.
  destruct (reset_ok e) as (d0 & d1 & p0 & p1 & e' & E & T).
  exists d0, d1, p0, p1. eexists. exists e'.
  split; [exact E|].
  split; [exact (dealt_dealer _ _ _ _ _ _ T)|].
  split; [exact (dealt_player _ _ _ _ _ _ T)|].
  split; [exact (dealt_folded _ _ _ _ _ _ T)|].
  split; [exact (dealt_valid _ _ _ _ _ _ T)|].
  exact (dealt_sum _ _ _ _ _ _ T).
Qed.

(** * What zeroes the running count *)

Lemma draw_card_sum (e : env) :
  plus_minus_sum (snd (_draw_card e)) =
  if amount_of_cards_lower_than_15 e then 0 else plus_minus_sum e.
Proof.
  rewrite draw_card_eq. cbv zeta.
  assert (S1 : plus_minus_sum (pre_draw e) =
               if amount_of_cards_lower_than_15 e then 0 else plus_minus_sum e).
  { unfold pre_draw. destruct (amount_of_cards_lower_than_15 e); reflexivity. }
  destruct (choice _ _) as [[card r]|]; [|exact S1].
  destruct (list_remove _ _); exact S1.
Qed.

(** C2, as stated, fails: after a first [reset()] (generator that always
    picks the first card) the count is 1, the flag is unset and 48 cards are
    left, so that no reshuffle is due; a second [reset()] deals 1, 2, 3 and 4
    again and leaves the count 1, not the former count plus the weights of
    the cards it counts. *)
Lemma reset_does_not_carry_count :
  let e := snd (reset (init false false (const_rng 0))) in
  let e' := snd (reset e) in
  plus_minus_sum e = 1 /\ amount_of_cards_lower_than_15 e = false /\
  length (deck e) = 48%nat /\
  dealer e' = Some [1; 2] /\ player e' = Some [3; 4] /\
  plus_minus_sum e' = 1 /\
  plus_minus_sum e' <> plus_minus_sum e + (weight 1 + weight 3 + weight 4).
Proof. vm_compute. repeat split; discriminate. Qed.

(** C2, amended: the running count is zeroed by the reshuffle inside a draw
    and by [reset()]. [reset()] does not read the former count: it zeroes it
    and reinitializes the shoe before dealing, and leaves the weights of the
    three cards it counts; a draw leaves 0 when the flag is set and the
    former count otherwise. *)
Theorem count_zeroed_by_reset_and_reshuffle (e : env) (c : Z) :
  reset (set_plus_minus_sum c e) = reset e /\
  plus_minus_sum (reset_start e) = 0 /\
  deck (reset_start e) = fresh_deck /\
  (exists d0 d1 p0 p1 o e',
      reset e = (Ret o, e') /\
      dealer e' = Some [d0; d1] /\ player e' = Some [p0; p1] /\
      plus_minus_sum e' = weight d0 + weight p0 + weight p1) /\
  plus_minus_sum (snd (_draw_card e)) =
  if amount_of_cards_lower_than_15 e then 0 else plus_minus_sum e.
Proof.
  split; [reflexivity|]. split; [reflexivity|]. split; [reflexivity|].
  split; [|apply draw_card_sum].
  destruct (reset_ok e) as (d0 & d1 & p0 & p1 & e' & E & T).
  exists d0, d1, p0, p1. eexists. exists e'.
  split; [exact E|].
  split; [exact (dealt_dealer _ _ _ _ _ _ T)|].
  split; [exact (dealt_player _ _ _ _ _ _ T)|].
  exact (dealt_sum _ _ _ _ _ _ T).
Qed.

(** * When [step] fails *)

(** C3, as stated, fails: after [reset()] (generator that always picks the
    first card: dealer 1, 2 and player 3, 4), a stick returns [done = True]
    with reward -1, and a hit called next does not fail: it returns an
    observation for the player's hand 3, 4, 6. *)
Lemma step_after_done_returns :
  let e1 := snd (reset (init false false (const_rng 0))) in
  let r1 := step 17 0 e1 in
  let r2 := step 17 1 (snd r1) in
  fst r1 = Ret (7, 1, false, 2, (-1)%Q, true) /\
  fst r2 = Ret (13, 1, false, 3, 0%Q, false) /\
  player (snd r2) = Some [3; 4; 6].
Proof. vm_compute. repeat split. Qed.

(** C3, amended: in a reachable state [step] fails for an action outside
    {0, 1, 2} (the assertion, nothing is changed) and when no [reset()] has
    dealt the hands; the object keeps no done flag, so with the hands dealt
    every action of {0, 1, 2} returns, and so does the call that follows,
    whatever [done] was. *)
Theorem step_fails_exactly (e : env) (fuel : nat) (a : Z) :
  reachable e -> (17 <= fuel)%nat ->
  (action_space_contains a = false ->
   step fuel a e = (Raise AssertionError, e)) /\
  (player e = None -> exists x e', step fuel a e = (Raise x, e')) /\
  (action_space_contains a = true -> player e <> None ->
   exists r e',
     step fuel a e = (Ret r, e') /\
     forall a', action_space_contains a' = true ->
                exists r' e'', step fuel a' e' = (Ret r', e'')).
Proof.
  intros R F. pose proof (reachable_inv e R) as I.
  split; [apply step_bad_action|]. split.
  - intros P. destruct I as [H [D0 P0|d' p' D0 P0 _ _ _ _]]; [|congruence].
    destruct (step_None fuel a e H P0 D0) as (x & e' & E & _). eauto.
  - intros C P. destruct (player e) as [p|] eqn:Pe; [|congruence].
    destruct (step_returns fuel a e p I Pe F C) as (r & e' & E).
    exists r, e'. split; [exact E|]. intros a' C'.
    assert (I' : inv e').
    { apply (step_inv fuel a e (Ret r) e' I E). discriminate. }
    destruct (player e') as [p'|] eqn:Pe'.
    + exact (step_returns fuel a' e' p' I' Pe' F C').
    + exfalso. destruct I' as [H' [D0 P0|d' p' D0 P0 _ _ _ _]]; [|congruence].
      destruct (step_None fuel a e' H' P0 D0) as (x & e2 & E2 & _).
      destruct (inv_dealer_of_player e p I Pe) as [d D].
      destruct (inv_in_play e p d I Pe D) as (H & Ld & Lp & Vd & Vp).
      destruct (upcard_exists d Ld) as [up U].
      pose proof (fuel_enough fuel d F Vd) as F'.
      destruct (action_cases a C) as [->|[->| ->]].
      * destruct (step_stick_ok fuel e p d up H Pe D Vd U F')
          as (drawn & e3 & L & _ & E3).
        rewrite E3 in E. inversion E; subst.
        rewrite (played_player _ _ _ _ L) in Pe'. congruence.
      * destruct (step_hit_ok fuel e p d up H Pe D U) as (card & e1 & _ & E3).
        rewrite E3 in E. inversion E; subst. discriminate Pe'.
      * destruct (step_double_ok fuel e p d up H Pe D Vd U F')
          as (card & e1 & drawn & e3 & _ & L & E3).
        rewrite E3 in E. inversion E; subst.
        rewrite (played_player _ _ _ _ L) in Pe'. discriminate Pe'.
Qed.

Lemma step_fails_exactly_witness :
  let e := snd (step 17 0 (snd (reset (init false false (const_rng 0))))) in
  (action_space_contains 1 = false ->
   step 17 1 e = (Raise AssertionError, e)) /\
  (player e = None -> exists x e', step 17 1 e = (Raise x, e')) /\
  (action_space_contains 1 = true -> player e <> None ->
   exists r e',
     step 17 1 e = (Ret r, e') /\
     forall a', action_space_contains a' = true ->
                exists r' e'', step 17 a' e' = (Ret r', e'')).
Proof.
  apply (step_fails_exactly
           (snd (step 17 0 (snd (reset (init false false (const_rng 0))))))
           17 1).
  - apply reachable_step; [|lia]. apply reachable_reset, reach_init.
  - lia.
Defined.

(** * The shoe *)

(** C4: the reshuffle is checked at the start of a draw. In a reachable
    state a draw returns a card; from a shoe of 15 cards or more it takes
    the card from that shoe, appends it to the discard list and leaves the
    count alone, also when it leaves 14 cards (it then only sets the flag);
    from a shoe of fewer than 15 cards, so from 14 cards, it first restores
    the 52 cards, empties the discard list and zeroes the count, and leaves
    51 cards. *)
Theorem lazy_reshuffle (e : env) :
  reachable e ->
  exists card e',
    _draw_card e = (Ret card, e') /\
    ((15 <= length (deck e))%nat ->
     list_remove card (deck e) = Some (deck e') /\
     S (length (deck e')) = length (deck e) /\
     folded_cards e' = folded_cards e ++ [card] /\
     plus_minus_sum e' = plus_minus_sum e /\
     amount_of_cards_lower_than_15 e' = (length (deck e) <? 16)%nat) /\
    ((length (deck e) < 15)%nat ->
     list_remove card fresh_deck = Some (deck e') /\
     length (deck e') = 51%nat /\
     folded_cards e' = [card] /\
     plus_minus_sum e' = 0 /\
     amount_of_cards_lower_than_15 e' = false) /\
    (length (deck e) = 14%nat -> length (deck e') = 51%nat).
Proof.
  intros R. pose proof (inv_shoe e (reachable_inv e R)) as H.
  pose proof (pre_draw_size e H) as S1.
  pose proof (pre_draw_valid e H) as V1.
  assert (NE : deck (pre_draw e) <> []).
  { intros E. rewrite E in S1. simpl in S1. lia. }
  destruct (choice_In (np_random (pre_draw e)) _ NE) as (card & r & C & I).
  destruct (list_remove_In _ _ I) as [dk Rm].
  pose proof (list_remove_length _ _ _ Rm) as L.
  exists card. eexists. split.
  { rewrite draw_card_eq. cbv zeta. rewrite C, Rm. reflexivity. }
  cbn [deck folded_cards plus_minus_sum amount_of_cards_lower_than_15].
  assert (Low : (length (deck e) < 15)%nat ->
                list_remove card fresh_deck = Some dk /\
                length dk = 51%nat /\
                folded_cards (pre_draw e) ++ [card] = [card] /\
                plus_minus_sum (pre_draw e) = 0 /\
                (length dk <? 15)%nat = false).
  { intros Lt. rewrite (pre_draw_reshuffle e H Lt) in *.
    cbn in Rm, L. split; [exact Rm|].
    assert (L51 : length dk = 51%nat) by lia.
    rewrite L51. repeat split. }
  split; [|split; [exact Low|intros E14; apply Low; lia]].
  intros Ge. rewrite (pre_draw_id e H Ge) in *.
  split; [exact Rm|]. split; [lia|]. split; [reflexivity|].
  split; [reflexivity|].
  destruct (Nat.ltb_spec (length dk) 15), (Nat.ltb_spec (length (deck e)) 16);
    try reflexivity; lia.
Qed.

Lemma lazy_reshuffle_witness :
  let e := run 17 (repeat 1 34%nat)
               (snd (reset (init false false (const_rng 0)))) in
  length (deck e) = 14%nat /\
  exists card e',
    _draw_card e = (Ret card, e') /\
    ((15 <= length (deck e))%nat ->
     list_remove card (deck e) = Some (deck e') /\
     S (length (deck e')) = length (deck e) /\
     folded_cards e' = folded_cards e ++ [card] /\
     plus_minus_sum e' = plus_minus_sum e /\
     amount_of_cards_lower_than_15 e' = (length (deck e) <? 16)%nat) /\
    ((length (deck e) < 15)%nat ->
     list_remove card fresh_deck = Some (deck e') /\
     length (deck e') = 51%nat /\
     folded_cards e' = [card] /\
     plus_minus_sum e' = 0 /\
     amount_of_cards_lower_than_15 e' = false) /\
    (length (deck e) = 14%nat -> length (deck e') = 51%nat).
Proof.
  split; [vm_compute; reflexivity|].
  apply (lazy_reshuffle
           (run 17 (repeat 1 34%nat)
                (snd (reset (init false false (const_rng 0)))))).
  apply reachable_run; [|lia]. apply reachable_reset, reach_init.
Defined.

(** C10: the shoe invariant [shoe_ok] (the flag is set if and only if the
    deck has fewer than 15 cards, and the deck has between 14 and 52 cards)
    holds in every reachable state and after the assignments that open
    [reset]. In every state with this invariant, so also between two draws
    of one call, a draw returns: the list that [choice] receives, the deck
    after the reshuffle the flag may ask for, has at least 15 cards, the
    card that [choice] picks in it is removed from it, and the state left
    has the invariant again, with between 14 and 51 cards, as has every
    state with the same flag and deck. *)
Theorem shoe_bounds (e : env) :
  (reachable e -> shoe_ok e) /\
  shoe_ok (reset_start e) /\
  (shoe_ok e ->
   amount_of_cards_lower_than_15 e = (length (deck e) <? 15)%nat /\
   (14 <= length (deck e) <= 52)%nat /\
   (15 <= length (deck (pre_draw e)) <= 52)%nat /\
   exists card e',
     _draw_card e = (Ret card, e') /\
     choice (np_random e) (deck (pre_draw e)) = Some (card, np_random e') /\
     In card (deck (pre_draw e)) /\
     list_remove card (deck (pre_draw e)) = Some (deck e') /\
     (14 <= length (deck e') <= 51)%nat /\
     shoe_ok e' /\
     forall e2,
       amount_of_cards_lower_than_15 e2 = amount_of_cards_lower_than_15 e' ->
       deck e2 = deck e' -> shoe_ok e2).
Proof.
  split; [intros R; exact (inv_shoe e (reachable_inv e R))|].
  split; [apply reset_start_shoe|].
  intros H.
  pose proof (pre_draw_size e H) as S1.
  pose proof (pre_draw_valid e H) as V1.
  destruct (pre_draw_frame e) as (_ & _ & _ & _ & Fr).
  split; [exact (shoe_flag e H)|]. split; [exact (shoe_size e H)|].
  split; [exact S1|].
  assert (NE : deck (pre_draw e) <> []).
  { intros E. rewrite E in S1. simpl in S1. lia. }
  destruct (choice_In (np_random (pre_draw e)) _ NE) as (card & r & C & I).
  destruct (list_remove_In _ _ I) as [dk Rm].
  pose proof (list_remove_length _ _ _ Rm) as L.
  pose proof (list_remove_Forall _ _ _ _ Rm V1) as Vk.
  exists card. eexists. split.
  { rewrite draw_card_eq. cbv zeta. rewrite C, Rm. reflexivity. }
  cbn [deck np_random amount_of_cards_lower_than_15].
  split; [rewrite <- Fr; exact C|]. split; [exact I|]. split; [exact Rm|].
  split; [lia|]. split.
  - split; cbn [deck amount_of_cards_lower_than_15];
      [reflexivity|lia|exact Vk].
  - intros e2 F2 D2. split; rewrite ?F2, D2; [reflexivity|lia|exact Vk].
Qed.

Lemma shoe_bounds_witness :
  let e := run 17 (repeat 1 33%nat)
               (snd (reset (init true true (const_rng 7)))) in
  amount_of_cards_lower_than_15 e = (length (deck e) <? 15)%nat /\
  (14 <= length (deck e) <= 52)%nat /\
  (15 <= length (deck (pre_draw e)) <= 52)%nat /\
  exists card e',
    _draw_card e = (Ret card, e') /\
    choice (np_random e) (deck (pre_draw e)) = Some (card, np_random e') /\
    In card (deck (pre_draw e)) /\
    list_remove card (deck (pre_draw e)) = Some (deck e') /\
    (14 <= length (deck e') <= 51)%nat /\
    shoe_ok e' /\
    forall e2,
      amount_of_cards_lower_than_15 e2 = amount_of_cards_lower_than_15 e' ->
      deck e2 = deck e' -> shoe_ok e2.
Proof.
  apply (proj2 (proj2
           (shoe_bounds
              (run 17 (repeat 1 33%nat)
                   (snd (reset (init true true (const_rng 7)))))))).
  apply (proj1
           (shoe_bounds
              (run 17 (repeat 1 33%nat)
                   (snd (reset (init true true (const_rng 7))))))).
  apply reachable_run; [|lia]. apply reachable_reset, reach_init.
Defined.

(** * The dealer *)

Lemma played_stand_nil (e : env) (d drawn : list Z) (e' : env) :
  played e d drawn e' -> 17 <= _sum_hand d -> drawn = [].
Proof.
  intros L G. destruct drawn as [|c drawn]; [reflexivity|].
  pose proof (played_drawing _ _ _ _ L 0%nat ltac:(simpl; lia)) as B.
  simpl in B. rewrite app_nil_r in B. lia.
Qed.

(** C8: when the player sticks or doubles in a reachable state, the
    dealer's loop ends (fuel 17 is enough for every shoe and every
    generator). The dealer draws while the total of the hand, with a usable
    ace counted as 11, is below 17, and stands at the first total of 17 or
    more: a dealer who holds 17 or more, soft or hard, draws nothing, and on
    a stick nothing changes. *)
Theorem dealer_policy (e : env) (fuel : nat) (d : list Z) :
  reachable e -> dealer e = Some d -> (17 <= fuel)%nat ->
  (exists drawn e' r,
      dealer_loop fuel e = (Ret tt, e') /\
      step fuel 0 e = (Ret r, e') /\
      dealer e' = Some (d ++ drawn) /\
      17 <= _sum_hand (d ++ drawn) /\
      (forall k, (k < length drawn)%nat ->
                 _sum_hand (d ++ firstn k drawn) < 17) /\
      (17 <= _sum_hand d -> drawn = [] /\ e' = e)) /\
  (exists drawn e' r,
      step fuel 2 e = (Ret r, e') /\
      dealer e' = Some (d ++ drawn) /\
      17 <= _sum_hand (d ++ drawn) /\
      (forall k, (k < length drawn)%nat ->
                 _sum_hand (d ++ firstn k drawn) < 17) /\
      (17 <= _sum_hand d -> drawn = [])).
Proof.
  intros R D F. pose proof (reachable_inv e R) as I.
  destruct (inv_player_of_dealer e d I D) as [p P].
  destruct (inv_in_play e p d I P D) as (H & Ld & Lp & Vd & Vp).
  destruct (upcard_exists d Ld) as [up U].
  pose proof (fuel_enough fuel d F Vd) as F'.
  split.
  - destruct (step_stick_ok fuel e p d up H P D Vd U F')
      as (drawn & e' & L & E & St).
    exists drawn, e'. eexists.
    split; [exact E|]. split; [exact St|].
    split; [exact (played_dealer _ _ _ _ L)|].
    split; [exact (played_stands _ _ _ _ L)|].
    split; [exact (played_drawing _ _ _ _ L)|].
    intros G. split; [exact (played_stand_nil _ _ _ _ L G)|].
    rewrite (dealer_loop_stand fuel e d D G) in E. congruence.
  - destruct (step_double_ok fuel e p d up H P D Vd U F')
      as (card & e1 & drawn & e' & W & L & St).
    exists drawn, e'. eexists.
    split; [exact St|].
    split; [exact (played_dealer _ _ _ _ L)|].
    split; [exact (played_stands _ _ _ _ L)|].
    split; [exact (played_drawing _ _ _ _ L)|].
    exact (played_stand_nil _ _ _ _ L).
Qed.

Lemma dealer_policy_witness :
  let e := snd (reset (init false false (script_rng [0; 4; 0; 0]%nat))) in
  dealer e = Some [1; 6] /\ _sum_hand [1; 6] = 17 /\
  (exists drawn e' r,
      dealer_loop 17 e = (Ret tt, e') /\
      step 17 0 e = (Ret r, e') /\
      dealer e' = Some ([1; 6] ++ drawn) /\
      17 <= _sum_hand ([1; 6] ++ drawn) /\
      (forall k, (k < length drawn)%nat ->
                 _sum_hand ([1; 6] ++ firstn k drawn) < 17) /\
      (17 <= _sum_hand [1; 6] -> drawn = [] /\ e' = e)) /\
  (exists drawn e' r,
      step 17 2 e = (Ret r, e') /\
      dealer e' = Some ([1; 6] ++ drawn) /\
      17 <= _sum_hand ([1; 6] ++ drawn) /\
      (forall k, (k < length drawn)%nat ->
                 _sum_hand ([1; 6] ++ firstn k drawn) < 17) /\
      (17 <= _sum_hand [1; 6] -> drawn = [])).
Proof.
  split; [reflexivity|]. split; [reflexivity|].
  apply (dealer_policy
           (snd (reset (init false false (script_rng [0; 4; 0; 0]%nat))))
           17 [1; 6]).
  - apply reachable_reset, reach_init.
  - reflexivity.
  - lia.
Defined.

(** * Rewards *)

Lemma cmp_cases (a b : Z) :
  (b < a /\ cmp a b = 1%Q) \/ (a = b /\ cmp a b = 0%Q) \/
  (a < b /\ cmp a b = (-1)%Q).
Proof.
  unfold cmp. rewrite Z.gtb_ltb.
  destruct (Z.ltb_spec b a), (Z.ltb_spec a b); try lia; auto.
  right. left. split; [lia|reflexivity].
Qed.

Lemma double_cmp_not_one (a b : Z) : Qeq_bool (2 * cmp a b) 1 = false.
Proof.
  destruct (cmp_cases a b) as [[_ ->]|[[_ ->]|[_ ->]]]; reflexivity.
Qed.

Lemma rule_variant_default (p d : list Z) (c : Q) :
  rule_variant false false p d c = c.
Proof. reflexivity. Qed.

Lemma rule_variant_not_natural (s n : bool) (p d : list Z) (c : Q) :
  _is_natural p = false -> rule_variant s n p d c = c.
Proof. intros N. unfold rule_variant. rewrite N. destruct s, n; reflexivity. Qed.

Lemma rule_variant_sab (n : bool) (p d : list Z) (c : Q) :
  rule_variant true n p d c =
  if _is_natural p && negb (_is_natural d) then 1%Q else c.
Proof. reflexivity. Qed.

Lemma rule_variant_bonus (p d : list Z) (c : Q) :
  rule_variant false true p d c =
  if _is_natural p && Qeq_bool c 1 then (3 # 2)%Q else c.
Proof. reflexivity. Qed.

(** The reward after a stick when only [natural] is set, [c] being the
    value of [cmp]. *)
Lemma bonus_reward_spec (n : bool) (c : Q) :
  c = 1%Q \/ c = 0%Q \/ c = (-1)%Q ->
  (((if n && Qeq_bool c 1 then 3 # 2 else c) == 3 # 2)%Q <->
   n = true /\ (c == 1)%Q) /\
  (~ ((if n && Qeq_bool c 1 then 3 # 2 else c) == 3 # 2)%Q ->
   (if n && Qeq_bool c 1 then (3 # 2)%Q else c) = c).
Proof.
  intros [->|[->| ->]]; destruct n; simpl andb; cbv iota.
  - split; [split; [intros _; split; reflexivity|intros _; reflexivity]|].
    intros Q. exfalso. apply Q. reflexivity.
  - split; [split; [intros Q; q_absurd Q|intros [Q _]; discriminate Q]|].
    intros _. reflexivity.
  - split; [split; [intros Q; q_absurd Q|intros [_ Q]; q_absurd Q]|].
    intros _. reflexivity.
  - split; [split; [intros Q; q_absurd Q|intros [Q _]; discriminate Q]|].
    intros _. reflexivity.
  - split; [split; [intros Q; q_absurd Q|intros [_ Q]; q_absurd Q]|].
    intros _. reflexivity.
  - split; [split; [intros Q; q_absurd Q|intros [Q _]; discriminate Q]|].
    intros _. reflexivity.
Qed.

Lemma score_bust (h : list Z) : _is_bust h = true -> _score h = 0.
Proof. intros B. unfold _score. rewrite B. reflexivity. Qed.

Lemma score_not_bust (h : list Z) : _is_bust h = false -> _score h = _sum_hand h.
Proof. intros B. unfold _score. rewrite B. reflexivity. Qed.

(** C5: with [natural] set and [sab] unset, in a reachable state with the
    hands dealt, a stick returns the reward 1.5 exactly when the player's
    hand is a natural and [cmp] gave 1, and the value of [cmp] otherwise; a
    double never returns 1.5, because twice the value of [cmp] is never
    1. *)
Theorem natural_bonus (e : env) (fuel : nat) (p d : list Z) :
  reachable e -> natural e = true -> sab e = false ->
  player e = Some p -> dealer e = Some d -> (17 <= fuel)%nat ->
  (exists drawn o r e',
      step fuel 0 e = (Ret (o, r, true), e') /\
      player e' = Some p /\ dealer e' = Some (d ++ drawn) /\
      ((r == 3 # 2)%Q <->
       _is_natural p = true /\
       (cmp (_score p) (_score (d ++ drawn)) == 1)%Q) /\
      (~ (r == 3 # 2)%Q -> r = cmp (_score p) (_score (d ++ drawn)))) /\
  (exists card drawn o r e',
      step fuel 2 e = (Ret (o, r, true), e') /\
      r = (2 * cmp (_score (p ++ [card])) (_score (d ++ drawn)))%Q /\
      ~ (r == 3 # 2)%Q).
Proof.
  intros R Nt Sb P D F. pose proof (reachable_inv e R) as I.
  destruct (inv_in_play e p d I P D) as (H & Ld & Lp & Vd & Vp).
  destruct (upcard_exists d Ld) as [up U].
  pose proof (fuel_enough fuel d F Vd) as F'.
  split.
  - destruct (step_stick_ok fuel e p d up H P D Vd U F')
      as (drawn & e' & L & _ & St).
    rewrite Nt, Sb, rule_variant_bonus in St.
    exists drawn. eexists. eexists. exists e'.
    split; [exact St|].
    split; [rewrite (played_player _ _ _ _ L); exact P|].
    split; [exact (played_dealer _ _ _ _ L)|].
    apply bonus_reward_spec.
    destruct (cmp_cases (_score p) (_score (d ++ drawn)))
      as [[_ ->]|[[_ ->]|[_ ->]]]; auto.
  - destruct (step_double_ok fuel e p d up H P D Vd U F')
      as (card & e1 & drawn & e' & W & L & St).
    rewrite Nt, Sb, rule_variant_bonus, double_cmp_not_one, andb_false_r in St.
    exists card, drawn. eexists. eexists. exists e'.
    split; [exact St|]. split; [reflexivity|].
    destruct (cmp_cases (_score (p ++ [card])) (_score (d ++ drawn)))
      as [[_ ->]|[[_ ->]|[_ ->]]]; intros Q; q_absurd Q.
Qed.

Lemma natural_bonus_witness :
  let e := snd (reset (init true false (script_rng [1; 1; 0; 6]%nat))) in
  (exists drawn o r e',
      step 17 0 e = (Ret (o, r, true), e') /\
      player e' = Some [1; 10] /\ dealer e' = Some ([2; 3] ++ drawn) /\
      ((r == 3 # 2)%Q <->
       _is_natural [1; 10] = true /\
       (cmp (_score [1; 10]%Z) (_score ([2; 3]%Z ++ drawn)) == 1)%Q) /\
      (~ (r == 3 # 2)%Q ->
       r = cmp (_score [1; 10]) (_score ([2; 3] ++ drawn)))) /\
  (exists card drawn o r e',
      step 17 2 e = (Ret (o, r, true), e') /\
      r = (2 * cmp (_score ([1; 10]%Z ++ [card]))
                   (_score ([2; 3]%Z ++ drawn)))%Q /\
      ~ (r == 3 # 2)%Q).
Proof.
  apply (natural_bonus
           (snd (reset (init true false (script_rng [1; 1; 0; 6]%nat))))
           17 [1; 10] [2; 3]).
  - apply reachable_reset, reach_init.
  - reflexivity.
  - reflexivity.
  - reflexivity.
  - reflexivity.
  - lia.
Defined.

(** A natural played with [natural] set: the player holds 1, 10, the dealer
    draws to 20 and the stick pays 1.5. *)
Example natural_stick_pays_bonus :
  fst (step 17 0 (snd (reset (init true false (script_rng [1; 1; 0; 6]%nat)))))
  = Ret (21, 2, true, 2, (3 # 2)%Q, true).
Proof. reflexivity. Qed.

(** C6: with both flags unset, in a reachable state with the hands dealt, a
    double draws one card to the player, bust or not, lets the dealer play
    to 17 or more and returns twice [cmp] of the two scores, a bust hand
    scoring 0; when the player busts and the dealer does not, the reward is
    -2. *)
Theorem double_default (e : env) (fuel : nat) (p d : list Z) :
  reachable e -> natural e = false -> sab e = false ->
  player e = Some p -> dealer e = Some d -> (17 <= fuel)%nat ->
  exists card drawn o r e',
    step fuel 2 e = (Ret (o, r, true), e') /\
    player e' = Some (p ++ [card]) /\
    dealer e' = Some (d ++ drawn) /\
    17 <= _sum_hand (d ++ drawn) /\
    r = (2 * cmp (_score (p ++ [card])) (_score (d ++ drawn)))%Q /\
    (_is_bust (p ++ [card]) = true -> _score (p ++ [card]) = 0) /\
    (_is_bust (p ++ [card]) = true -> _is_bust (d ++ drawn) = false ->
     r = (-2)%Q).
Proof.
  intros R Nt Sb P D F. pose proof (reachable_inv e R) as I.
  destruct (inv_in_play e p d I P D) as (H & Ld & Lp & Vd & Vp).
  destruct (upcard_exists d Ld) as [up U].
  pose proof (fuel_enough fuel d F Vd) as F'.
  destruct (step_double_ok fuel e p d up H P D Vd U F')
    as (card & e1 & drawn & e' & W & L & St).
  rewrite Nt, Sb, rule_variant_default in St.
  exists card, drawn. eexists. eexists. exists e'.
  split; [exact St|].
  split; [rewrite (played_player _ _ _ _ L); reflexivity|].
  split; [exact (played_dealer _ _ _ _ L)|].
  pose proof (played_stands _ _ _ _ L) as G.
  split; [exact G|]. split; [reflexivity|]. split; [apply score_bust|].
  intros Bp Bd. rewrite (score_bust _ Bp), (score_not_bust _ Bd).
  destruct (cmp_cases 0 (_sum_hand (d ++ drawn))) as [[C _]|[[C _]|[_ ->]]];
    [lia|lia|reflexivity].
Qed.

Lemma double_default_witness :
  let e := snd (reset (init false false (script_rng [9; 6; 8; 7; 4]%nat))) in
  exists card drawn o r e',
    step 17 2 e = (Ret (o, r, true), e') /\
    player e' = Some ([10; 9] ++ [card]) /\
    dealer e' = Some ([10; 7] ++ drawn) /\
    17 <= _sum_hand ([10; 7] ++ drawn) /\
    r = (2 * cmp (_score ([10; 9]%Z ++ [card]))
                 (_score ([10; 7]%Z ++ drawn)))%Q /\
    (_is_bust ([10; 9] ++ [card]) = true -> _score ([10; 9] ++ [card]) = 0) /\
    (_is_bust ([10; 9] ++ [card]) = true ->
     _is_bust ([10; 7] ++ drawn) = false -> r = (-2)%Q).
Proof.
  apply (double_default
           (snd (reset (init false false (script_rng [9; 6; 8; 7; 4]%nat))))
           17 [10; 9] [10; 7]).
  - apply reachable_reset, reach_init.
  - reflexivity.
  - reflexivity.
  - reflexivity.
  - reflexivity.
  - lia.
Defined.

(** A double that busts: the player holds 10, 9, draws 5 and busts, the
    dealer stands on 10, 7, and the reward is -2. *)
Example double_bust_pays_minus_two :
  let r := step 17 2
             (snd (reset (init false false (script_rng [9; 6; 8; 7; 4]%nat)))) in
  fst r = Ret (24, 10, false, -1, (-2)%Q, true) /\
  player (snd r) = Some [10; 9; 5] /\ dealer (snd r) = Some [10; 7].
Proof. vm_compute. repeat split. Qed.

(** C7: with [sab] set, in a reachable state with the hands dealt, a stick
    returns the reward 1 when the player's hand is a natural and the
    dealer's final hand is not, whatever [cmp] gave; when the dealer's hand
    is a natural too, or the player's hand is none, it returns the value of
    [cmp]. *)
Theorem sab_stick (e : env) (fuel : nat) (p d : list Z) :
  reachable e -> sab e = true ->
  player e = Some p -> dealer e = Some d -> (17 <= fuel)%nat ->
  exists drawn o r e',
    step fuel 0 e = (Ret (o, r, true), e') /\
    player e' = Some p /\ dealer e' = Some (d ++ drawn) /\
    (_is_natural p = true -> _is_natural (d ++ drawn) = false -> r = 1%Q) /\
    (_is_natural (d ++ drawn) = true ->
     r = cmp (_score p) (_score (d ++ drawn))) /\
    (_is_natural p = true -> _is_natural (d ++ drawn) = true -> r = 0%Q) /\
    (_is_natural p = false -> r = cmp (_score p) (_score (d ++ drawn))).
Proof.
  intros R Sb P D F. pose proof (reachable_inv e R) as I.
  destruct (inv_in_play e p d I P D) as (H & Ld & Lp & Vd & Vp).
  destruct (upcard_exists d Ld) as [up U].
  pose proof (fuel_enough fuel d F Vd) as F'.
  destruct (step_stick_ok fuel e p d up H P D Vd U F')
    as (drawn & e' & L & _ & St).
  rewrite Sb, rule_variant_sab in St.
  exists drawn. eexists. eexists. exists e'.
  split; [exact St|].
  split; [rewrite (played_player _ _ _ _ L); exact P|].
  split; [exact (played_dealer _ _ _ _ L)|].
  split; [intros -> ->; reflexivity|].
  split; [intros ->; rewrite andb_false_r; reflexivity|].
  split; [|intros ->; reflexivity].
  intros Np Nd. rewrite Np, Nd. simpl.
  apply is_natural_iff in Np. apply is_natural_iff in Nd.
  destruct Np as [->| ->]; destruct Nd as [->| ->]; reflexivity.
Qed.

Lemma sab_stick_witness :
  let e := snd (reset (init false true (script_rng [1; 1; 0; 6]%nat))) in
  exists drawn o r e',
    step 17 0 e = (Ret (o, r, true), e') /\
    player e' = Some [1; 10] /\ dealer e' = Some ([2; 3] ++ drawn) /\
    (_is_natural [1; 10] = true -> _is_natural ([2; 3] ++ drawn) = false ->
     r = 1%Q) /\
    (_is_natural ([2; 3] ++ drawn) = true ->
     r = cmp (_score [1; 10]) (_score ([2; 3] ++ drawn))) /\
    (_is_natural [1; 10] = true -> _is_natural ([2; 3] ++ drawn) = true ->
     r = 0%Q) /\
    (_is_natural [1; 10] = false ->
     r = cmp (_score [1; 10]) (_score ([2; 3] ++ drawn))).
Proof.
  apply (sab_stick
           (snd (reset (init false true (script_rng [1; 1; 0; 6]%nat))))
           17 [1; 10] [2; 3]).
  - apply reachable_reset, reach_init.
  - reflexivity.
  - reflexivity.
  - reflexivity.
  - lia.
Defined.

(** The two cases played: the natural 1, 10 against a dealer who draws to
    20 pays 1; against the dealer's natural 1, 10 it pays the value of
    [cmp], 0. *)
Example sab_natural_wins :
  let r := step 17 0
             (snd (reset (init false true (script_rng [1; 1; 0; 6]%nat)))) in
  fst r = Ret (21, 2, true, 2, 1%Q, true) /\
  player (snd r) = Some [1; 10] /\ dealer (snd r) = Some [2; 3; 4; 5; 6].
Proof. vm_compute. repeat split. Qed.

Example sab_two_naturals_draw :
  let r := step 17 0
             (snd (reset (init false true (script_rng [0; 8; 11; 8]%nat)))) in
  fst r = Ret (21, 1, true, -3, 0%Q, true) /\
  player (snd r) = Some [1; 10] /\ dealer (snd r) = Some [1; 10].
Proof. vm_compute. repeat split. Qed.

(** C9: whatever the flags, in a reachable state with the hands dealt, a
    double leaves the player with three cards or more, which is no natural,
    and returns exactly twice [cmp] of the two scores. *)
Theorem double_reward (e : env) (fuel : nat) (p d : list Z) :
  reachable e -> player e = Some p -> dealer e = Some d ->
  (17 <= fuel)%nat ->
  exists card drawn o r e',
    step fuel 2 e = (Ret (o, r, true), e') /\
    player e' = Some (p ++ [card]) /\
    dealer e' = Some (d ++ drawn) /\
    (3 <= length (p ++ [card]))%nat /\
    _is_natural (p ++ [card]) = false /\
    r = (2 * cmp (_score (p ++ [card])) (_score (d ++ drawn)))%Q.
Proof.
  intros R P D F. pose proof (reachable_inv e R) as I.
  destruct (inv_in_play e p d I P D) as (H & Ld & Lp & Vd & Vp).
  destruct (upcard_exists d Ld) as [up U].
  pose proof (fuel_enough fuel d F Vd) as F'.
  destruct (step_double_ok fuel e p d up H P D Vd U F')
    as (card & e1 & drawn & e' & W & L & St).
  pose proof (not_natural_after_append p card Lp) as Nn.
  rewrite (rule_variant_not_natural _ _ _ _ _ Nn) in St.
  exists card, drawn. eexists. eexists. exists e'.
  split; [exact St|].
  split; [rewrite (played_player _ _ _ _ L); reflexivity|].
  split; [exact (played_dealer _ _ _ _ L)|].
  split; [rewrite length_app; simpl; lia|].
  split; [exact Nn|reflexivity].
Qed.

Lemma double_reward_witness :
  let e := snd (reset (init true true (script_rng [1; 1; 0; 6]%nat))) in
  exists card drawn o r e',
    step 17 2 e = (Ret (o, r, true), e') /\
    player e' = Some ([1; 10] ++ [card]) /\
    dealer e' = Some ([2; 3] ++ drawn) /\
    (3 <= length ([1; 10]%Z ++ [card]))%nat /\
    _is_natural ([1; 10] ++ [card]) = false /\
    r = (2 * cmp (_score ([1; 10]%Z ++ [card]))
                 (_score ([2; 3]%Z ++ drawn)))%Q.
Proof.
  apply (double_reward
           (snd (reset (init true true (script_rng [1; 1; 0; 6]%nat))))
           17 [1; 10] [2; 3]).
  - apply reachable_reset, reach_init.
  - reflexivity.
  - reflexivity.
  - lia.
Defined.

(** A double played with both flags set on the natural 1, 10: the player draws 4 and holds 15, the dealer draws to 23
    and busts, and the reward is 2, neither 1 nor 1.5. *)
Example double_on_natural_pays_two :
  let r := step 17 2
             (snd (reset (init true true (script_rng [1; 1; 0; 6]%nat)))) in
  fst r = Ret (15, 2, false, 2, 2%Q, true) /\
  player (snd r) = Some [1; 10; 4] /\ dealer (snd r) = Some [2; 3; 5; 6; 7].
Proof. vm_compute. repeat split. Qed.

(** * Further properties of the hand evaluation *)

Lemma sum_perm (l l' : list Z) : Permutation l l' -> sum l = sum l'.
Proof.
  induction 1 as [|x l l' _ IH|x y l|l l' l'' _ IH1 _ IH2].
  - reflexivity.
  - rewrite !sum_cons, IH. reflexivity.
  - rewrite !sum_cons. lia.
  - congruence.
Qed.

Lemma contains_In (x : Z) (l : list Z) : contains x l = true <-> In x l.
Proof.
  unfold contains. rewrite existsb_exists. split.
  - intros (y & I & E). apply Z.eqb_eq in E. subst. exact I.
  - intros I. exists x. split; [exact I|apply Z.eqb_refl].
Qed.

Lemma contains_perm (x : Z) (l l' : list Z) :
  Permutation l l' -> contains x l = contains x l'.
Proof.
  intros P.
  destruct (contains x l) eqn:A, (contains x l') eqn:B; try reflexivity;
    exfalso.
  - apply contains_In in A. apply (Permutation_in _ P) in A.
    apply contains_In in A. congruence.
  - apply contains_In in B. apply (Permutation_in _ (Permutation_sym P)) in B.
    apply contains_In in B. congruence.
Qed.

Lemma is_natural_perm (l l' : list Z) :
  Permutation l l' -> _is_natural l = true -> _is_natural l' = true.
Proof.
  intros P N. apply is_natural_iff in N. apply is_natural_iff.
  destruct N as [->| ->]; apply Permutation_length_2_inv in P;
    destruct P as [->| ->]; auto.
Qed.

(** X1: the evaluation of a hand does not depend on the order of its cards:
    two hands with the same cards have the same usable ace, total, bust
    flag, score and natural flag. *)
Theorem hand_order_irrelevant (l l' : list Z) :
  Permutation l l' ->
  _usable_ace l = _usable_ace l' /\ _sum_hand l = _sum_hand l' /\
  _is_bust l = _is_bust l' /\ _score l = _score l' /\
  _is_natural l = _is_natural l'.
Proof.
  intros P.
  assert (U : _usable_ace l = _usable_ace l').
  { unfold _usable_ace. rewrite (contains_perm 1 l l' P), (sum_perm l l' P).
    reflexivity. }
  assert (T : _sum_hand l = _sum_hand l').
  { unfold _sum_hand. rewrite U, (sum_perm l l' P). reflexivity. }
  assert (B : _is_bust l = _is_bust l').
  { unfold _is_bust. rewrite T. reflexivity. }
  split; [exact U|]. split; [exact T|]. split; [exact B|].
  split; [unfold _score; rewrite B, T; reflexivity|].
  destruct (_is_natural l) eqn:N, (_is_natural l') eqn:N'; try reflexivity.
  - rewrite (is_natural_perm l l' P N) in N'. discriminate.
  - rewrite (is_natural_perm l' l (Permutation_sym P) N') in N. discriminate.
Qed.

Lemma hand_order_irrelevant_witness :
  _usable_ace [10; 1; 5] = _usable_ace [1; 5; 10] /\
  _sum_hand [10; 1; 5] = _sum_hand [1; 5; 10] /\
  _is_bust [10; 1; 5] = _is_bust [1; 5; 10] /\
  _score [10; 1; 5] = _score [1; 5; 10] /\
  _is_natural [10; 1; 5] = _is_natural [1; 5; 10].
Proof.
  apply (hand_order_irrelevant [10; 1; 5] [1; 5; 10]).
  change (Permutation (10 :: [1; 5]) ([1; 5] ++ 10 :: [])).
  apply Permutation_cons_app. simpl. apply Permutation_refl.
Defined.

(** X2: a hand is a natural exactly when it is the ace and a ten-valued
    card, in either order; a natural totals 21 with a usable ace, is not
    bust and scores 21. *)
Theorem natural_hands (h : list Z) :
  (_is_natural h = true <-> h = [1; 10] \/ h = [10; 1]) /\
  (_is_natural h = true ->
   length h = 2%nat /\ _usable_ace h = true /\ _sum_hand h = 21 /\
   _is_bust h = false /\ _score h = 21).
Proof.
  split; [apply is_natural_iff|].
  intros N. apply is_natural_iff in N.
  destruct N as [->| ->]; repeat split.
Qed.

Lemma natural_hands_witness :
  (_is_natural [10; 1] = true <-> [10; 1] = [1; 10] \/ [10; 1] = [10; 1]) /\
  (_is_natural [10; 1] = true ->
   length [10; 1] = 2%nat /\ _usable_ace [10; 1] = true /\
   _sum_hand [10; 1] = 21 /\ _is_bust [10; 1] = false /\
   _score [10; 1] = 21).
Proof. apply (natural_hands [10; 1]). Defined.

Lemma usable_ace_true (h : list Z) :
  _usable_ace h = true <-> In 1 h /\ sum h <= 11.
Proof.
  unfold _usable_ace. rewrite andb_true_iff, contains_In, Z.leb_le.
  split; intros [A B]; (split; [exact A|lia]).
Qed.

(** X3: for a hand of cards of the ranks 1 to 10, a usable ace means a total
    between 11 and 21, ten above the plain sum, so a hand with a usable ace
    is never bust; a bust hand has a plain sum of 22 or more and scores 0; a
    hand that is not bust scores its total; the score lies between 0 and
    21. *)
Theorem hand_totals (h : list Z) :
  Forall valid_card h ->
  (_usable_ace h = true ->
   In 1 h /\ _sum_hand h = sum h + 10 /\ 11 <= _sum_hand h <= 21 /\
   _is_bust h = false) /\
  (_usable_ace h = false -> _sum_hand h = sum h) /\
  (_is_bust h = true ->
   _usable_ace h = false /\ 22 <= sum h /\ _score h = 0) /\
  (_is_bust h = false -> _score h = _sum_hand h /\ _sum_hand h <= 21) /\
  0 <= _score h <= 21.
Proof.
  intros V. pose proof (sum_valid_lower h V) as L.
  unfold _score, _is_bust, _sum_hand.
  destruct (_usable_ace h) eqn:U.
  - apply usable_ace_true in U. destruct U as [I S].
    assert (1 <= sum h).
    { destruct h; [destruct I|]. simpl length in L. lia. }
    rewrite Z.gtb_ltb. destruct (Z.ltb_spec 21 (sum h + 10)); [lia|].
    repeat split; try discriminate; auto; lia.
  - rewrite Z.gtb_ltb. destruct (Z.ltb_spec 21 (sum h));
      repeat split; try discriminate; auto; lia.
Qed.

Lemma hand_totals_witness :
  (_usable_ace [1; 6] = true ->
   In 1 [1; 6] /\ _sum_hand [1; 6] = sum [1; 6] + 10 /\
   11 <= _sum_hand [1; 6] <= 21 /\ _is_bust [1; 6] = false) /\
  (_usable_ace [1; 6] = false -> _sum_hand [1; 6] = sum [1; 6]) /\
  (_is_bust [1; 6] = true ->
   _usable_ace [1; 6] = false /\ 22 <= sum [1; 6] /\ _score [1; 6] = 0) /\
  (_is_bust [1; 6] = false ->
   _score [1; 6] = _sum_hand [1; 6] /\ _sum_hand [1; 6] <= 21) /\
  0 <= _score [1; 6] <= 21.
Proof.
  apply (hand_totals [1; 6]). unfold valid_card.
  repeat (constructor; [lia|]). constructor.
Defined.

(** X4: [cmp] is the sign of the difference: 1 exactly when the first
    argument is the larger, 0 exactly when the two are equal, -1 exactly
    when it is the smaller; swapping the arguments negates it. *)
Theorem cmp_sign (a b : Z) :
  (cmp a b = 1%Q <-> b < a) /\ (cmp a b = 0%Q <-> a = b) /\
  (cmp a b = (-1)%Q <-> a < b) /\ cmp b a = (- cmp a b)%Q.
Proof.
  destruct (cmp_cases a b) as [[L E]|[[L E]|[L E]]];
    destruct (cmp_cases b a) as [[L' E']|[[L' E']|[L' E']]]; try lia;
    rewrite E, E'; repeat split; try reflexivity; try discriminate;
    intros; lia.
Qed.

(** * Further properties of the draw and of the count table *)

(** X5: a draw with the flag set returns a card of the full deck in every
    state, also from an empty deck: it leaves 51 cards, the drawn card alone
    in the discard list, the count 0 and the flag unset. With the flag
    unset, a draw from an empty deck raises [ValueError] and changes
    nothing, and a draw from a deck that is not empty removes one card of
    it, appends it to the discard list and leaves the count alone. *)
Theorem draw_card_edges (e : env) :
  (amount_of_cards_lower_than_15 e = true ->
   exists card e',
     _draw_card e = (Ret card, e') /\
     list_remove card fresh_deck = Some (deck e') /\
     length (deck e') = 51%nat /\ folded_cards e' = [card] /\
     plus_minus_sum e' = 0 /\ amount_of_cards_lower_than_15 e' = false) /\
  (amount_of_cards_lower_than_15 e = false -> deck e = [] ->
   _draw_card e = (Raise ValueError, e)) /\
  (amount_of_cards_lower_than_15 e = false -> deck e <> [] ->
   exists card e',
     _draw_card e = (Ret card, e') /\
     list_remove card (deck e) = Some (deck e') /\
     folded_cards e' = folded_cards e ++ [card] /\
     plus_minus_sum e' = plus_minus_sum e /\
     amount_of_cards_lower_than_15 e' = (length (deck e') <? 15)%nat).
Proof.
  split; [|split].
  - intros F.
    assert (P : pre_draw e = reshuffle e) by (unfold pre_draw; rewrite F; reflexivity).
    assert (NE : fresh_deck <> []) by discriminate.
    destruct (choice_In (np_random e) fresh_deck NE) as (card & r & C & I).
    destruct (list_remove_In _ _ I) as [dk Rm].
    pose proof (list_remove_length _ _ _ Rm) as L.
    rewrite fresh_deck_length in L.
    exists card. eexists. split.
    { rewrite draw_card_eq, P. cbv zeta.
      change (np_random (reshuffle e)) with (np_random e).
      change (deck (reshuffle e)) with fresh_deck.
      rewrite C, Rm. reflexivity. }
    cbn [deck folded_cards plus_minus_sum amount_of_cards_lower_than_15].
    split; [exact Rm|]. split; [lia|]. split; [reflexivity|].
    split; [reflexivity|]. apply Nat.ltb_ge. lia.
  - intros F E.
    rewrite draw_card_eq. unfold pre_draw. rewrite F. cbv zeta.
    rewrite E. reflexivity.
  - intros F NE.
    assert (P : pre_draw e = e) by (unfold pre_draw; rewrite F; reflexivity).
    destruct (choice_In (np_random e) (deck e) NE) as (card & r & C & I).
    destruct (list_remove_In _ _ I) as [dk Rm].
    exists card. eexists. split.
    { rewrite draw_card_eq, P. cbv zeta. rewrite C, Rm. reflexivity. }
    cbn [deck folded_cards plus_minus_sum amount_of_cards_lower_than_15].
    repeat split. exact Rm.
Qed.

Lemma draw_card_edges_witness :
  (exists card e',
      _draw_card (mkEnv None None 7 true [] [3] (const_rng 5) false false)
      = (Ret card, e') /\
      list_remove card fresh_deck = Some (deck e') /\
      length (deck e') = 51%nat /\ folded_cards e' = [card] /\
      plus_minus_sum e' = 0 /\ amount_of_cards_lower_than_15 e' = false) /\
  _draw_card (mkEnv None None 7 false [] [3] (const_rng 5) false false)
  = (Raise ValueError,
     mkEnv None None 7 false [] [3] (const_rng 5) false false).
Proof.
  split.
  - apply (proj1 (draw_card_edges
                    (mkEnv None None 7 true [] [3] (const_rng 5) false false))).
    reflexivity.
  - apply (proj1 (proj2 (draw_card_edges
                    (mkEnv None None 7 false [] [3] (const_rng 5) false false))));
      reflexivity.
Defined.

Lemma dict_get_missing (card : Z) :
  ~ 1 <= card <= 10 -> dict_get card plus_minus_compliance = None.
Proof.
  intros N. unfold plus_minus_compliance. simpl.
  repeat match goal with
         | |- context [card =? ?k] => destruct (Z.eqb_spec card k); [lia|]
         end.
  reflexivity.
Qed.

(** X6: the count table has the keys 1 to 10 and no other: for a card of
    these ranks the cost is returned and added to the count, +1 for the
    ranks 2 to 6, 0 for 7 to 9 and -1 for the ace and the ten; for any other
    key the lookup raises [KeyError] and the count is left as it was. *)
Theorem card_cost_table (card : Z) (e : env) :
  (1 <= card <= 10 ->
   _get_card_plus_minus_cost card e = (Ret (weight card), e) /\
   add_plus_minus card e =
   (Ret tt, set_plus_minus_sum (plus_minus_sum e + weight card) e) /\
   (weight card = 1 <-> 2 <= card <= 6) /\
   (weight card = 0 <-> 7 <= card <= 9) /\
   (weight card = -1 <-> card = 1 \/ card = 10)) /\
  (~ 1 <= card <= 10 ->
   _get_card_plus_minus_cost card e = (Raise KeyError, e) /\
   add_plus_minus card e = (Raise KeyError, e)).
Proof.
  split.
  - intros V. split; [|split; [exact (add_plus_minus_ok card e V)|]].
    + destruct (cost_valid card V) as (w & G & _).
      unfold _get_card_plus_minus_cost, weight. rewrite G. reflexivity.
    + assert (C : card = 1 \/ card = 2 \/ card = 3 \/ card = 4 \/ card = 5
                  \/ card = 6 \/ card = 7 \/ card = 8 \/ card = 9
                  \/ card = 10) by lia.
      repeat (destruct C as [->|C];
              [change (weight _) with 1 || change (weight _) with 0
               || change (weight _) with (-1); lia|]).
      subst. change (weight 10) with (-1). lia.
  - intros N. pose proof (dict_get_missing card N) as G.
    unfold add_plus_minus, _get_card_plus_minus_cost, bind, gets, lift, raise.
    rewrite G. split; reflexivity.
Qed.

Lemma card_cost_table_witness :
  (_get_card_plus_minus_cost 5 (init false false (const_rng 0))
   = (Ret (weight 5), init false false (const_rng 0)) /\
   add_plus_minus 5 (init false false (const_rng 0)) =
   (Ret tt,
    set_plus_minus_sum
      (plus_minus_sum (init false false (const_rng 0)) + weight 5)
      (init false false (const_rng 0))) /\
   (weight 5 = 1 <-> 2 <= 5 <= 6) /\
   (weight 5 = 0 <-> 7 <= 5 <= 9) /\
   (weight 5 = -1 <-> 5 = 1 \/ 5 = 10)) /\
  (_get_card_plus_minus_cost 11 (init false false (const_rng 0))
   = (Raise KeyError, init false false (const_rng 0)) /\
   add_plus_minus 11 (init false false (const_rng 0))
   = (Raise KeyError, init false false (const_rng 0))).
Proof.
  split.
  - apply (proj1 (card_cost_table 5 (init false false (const_rng 0)))). lia.
  - apply (proj2 (card_cost_table 11 (init false false (const_rng 0)))). lia.
Defined.

(** * Further properties of reset *)

(** The hands of [e] replaced. *)
Lemma draw_card_hands (D P : option (list Z)) (e : env) :
  _draw_card (set_dealer D (set_player P e)) =
  (fst (_draw_card e), set_dealer D (set_player P (snd (_draw_card e)))).
Proof.
  rewrite !draw_card_eq. unfold pre_draw. cbv zeta.
  change (amount_of_cards_lower_than_15 (set_dealer D (set_player P e)))
    with (amount_of_cards_lower_than_15 e).
  destruct (amount_of_cards_lower_than_15 e).
  - change (np_random (reshuffle (set_dealer D (set_player P e))))
      with (np_random (reshuffle e)).
    change (deck (reshuffle (set_dealer D (set_player P e))))
      with (deck (reshuffle e)).
    destruct (choice (np_random (reshuffle e)) (deck (reshuffle e)))
      as [[card r]|]; [|reflexivity].
    destruct (list_remove card (deck (reshuffle e))); reflexivity.
  - change (np_random (set_dealer D (set_player P e))) with (np_random e).
    change (deck (set_dealer D (set_player P e))) with (deck e).
    destruct (choice (np_random e) (deck e)) as [[card r]|]; [|reflexivity].
    destruct (list_remove card (deck e)); reflexivity.
Qed.

Lemma draw_hand_hands (D P : option (list Z)) (e : env) :
  _draw_hand (set_dealer D (set_player P e)) =
  (fst (_draw_hand e), set_dealer D (set_player P (snd (_draw_hand e)))).
Proof.
  unfold _draw_hand, bind. rewrite draw_card_hands.
  destruct (_draw_card e) as [[a| |] e1]; try reflexivity.
  cbv beta iota. unfold fst at 1, snd at 1. rewrite draw_card_hands.
  destruct (_draw_card e1) as [[b| |] e2]; reflexivity.
Qed.

(** The run of [reset] with its four draws. *)
Lemma reset_trace (e : env) :
  exists d0 d1 p0 p1 e1 e2 e3 e4,
    drew (reset_start e) d0 e1 /\ drew e1 d1 e2 /\
    drew (set_dealer (Some [d0; d1]) (counted d0 e2)) p0 e3 /\
    drew e3 p1 e4 /\
    pre_draw (reset_start e) = reset_start e /\ pre_draw e1 = e1 /\
    pre_draw (set_dealer (Some [d0; d1]) (counted d0 e2))
    = set_dealer (Some [d0; d1]) (counted d0 e2) /\
    pre_draw e3 = e3 /\
    plus_minus_sum e4 = weight d0 /\
    reset e =
    (Ret (_sum_hand [p0; p1], d0, _usable_ace [p0; p1],
          weight d0 + weight p0 + weight p1),
     set_player (Some [p0; p1]) (counted p1 (counted p0 e4))).
Proof.
  set (e0 := reset_start e).
  pose proof (reset_start_shoe e) as H0. fold e0 in H0.
  assert (L0 : length (deck e0) = 52%nat) by reflexivity.
  destruct (draw_hand_ok e0 H0 ltac:(lia))
    as (d0 & d1 & e1 & e2 & W1 & W2 & I0 & I1 & E12).
  pose proof (drew_size _ _ _ W1) as S1. rewrite I0, L0 in S1.
  pose proof (drew_size _ _ _ W2) as S2. rewrite I1 in S2.
  set (e2' := set_dealer (Some [d0; d1]) (counted d0 e2)).
  assert (H2 : shoe_ok e2').
  { apply set_dealer_shoe, counted_shoe, (drew_shoe _ _ _ W2). }
  assert (L2 : length (deck e2') = 50%nat) by (cbn; lia).
  destruct (draw_hand_ok e2' H2 ltac:(lia))
    as (p0 & p1 & e3 & e4 & W3 & W4 & I2 & I3 & E34).
  set (e' := set_player (Some [p0; p1]) (counted p1 (counted p0 e4))).
  assert (Sum : plus_minus_sum e' = weight d0 + weight p0 + weight p1).
  { cbn. rewrite (drew_sum _ _ _ W4), I3, (drew_sum _ _ _ W3), I2. cbn.
    rewrite (drew_sum _ _ _ W2), I1, (drew_sum _ _ _ W1), I0. cbn. lia. }
  assert (De : dealer e' = Some [d0; d1]).
  { cbn. rewrite (drew_dealer _ _ _ W4), (drew_dealer _ _ _ W3). reflexivity. }
  exists d0, d1, p0, p1, e1, e2, e3, e4.
  split; [exact W1|]. split; [exact W2|]. split; [exact W3|].
  split; [exact W4|]. split; [exact I0|]. split; [exact I1|].
  split; [exact I2|]. split; [exact I3|].
  split.
  { rewrite (drew_sum _ _ _ W4), I3, (drew_sum _ _ _ W3), I2. cbn.
    rewrite (drew_sum _ _ _ W2), I1, (drew_sum _ _ _ W1), I0. cbn. lia. }
  rewrite reset_eq. fold e0.
  rewrite (bind_Ret _ _ _ _ _ E12).
  rewrite (bind_index [d0; d1] 0 d0 _ _ eq_refl).
  rewrite (bind_Ret _ _ _ _ _ (add_plus_minus_ok d0 e2 (drew_valid _ _ _ W1))).
  rewrite bind_modify. fold (counted d0 e2). fold e2'.
  rewrite (bind_Ret _ _ _ _ _ E34).
  rewrite (bind_index [p0; p1] 0 p0 _ _ eq_refl).
  rewrite (bind_Ret _ _ _ _ _ (add_plus_minus_ok p0 e4 (drew_valid _ _ _ W3))).
  fold (counted p0 e4).
  rewrite (bind_index [p0; p1] 1 p1 _ _ eq_refl).
  rewrite (bind_Ret _ _ _ _ _
             (add_plus_minus_ok p1 (counted p0 e4) (drew_valid _ _ _ W4))).
  rewrite bind_modify. fold (counted p1 (counted p0 e4)). fold e'.
  rewrite (get_obs_ok e' [p0; p1] [d0; d1] d0 eq_refl De eq_refl), Sum.
  reflexivity.
Qed.

Lemma draw_hand_of_drews (e e1 e2 : env) (a b : Z) :
  drew e a e1 -> drew e1 b e2 -> _draw_hand e = (Ret [a; b], e2).
Proof.
  intros W1 W2. unfold _draw_hand.
  rewrite (bind_Ret _ _ _ _ _ (drew_eq _ _ _ W1)).
  rewrite (bind_Ret _ _ _ _ _ (drew_eq _ _ _ W2)). reflexivity.
Qed.

(** [reset] does not read the hands. *)
Lemma reset_hands (D P : option (list Z)) (e : env) :
  reset (set_dealer D (set_player P e)) = reset e.
Proof.
  destruct (reset_trace e)
    as (d0 & d1 & p0 & p1 & e1 & e2 & e3 & e4 & W1 & W2 & W3 & W4
        & _ & _ & _ & _ & S4 & E).
  rewrite E. rewrite reset_eq.
  change (reset_start (set_dealer D (set_player P e)))
    with (set_dealer D (set_player P (reset_start e))).
  pose proof (draw_hand_of_drews _ _ _ _ _ W1 W2) as E12.
  pose proof (draw_hand_of_drews _ _ _ _ _ W3 W4) as E34.
  pose proof (draw_hand_hands D P (reset_start e)) as B12.
  rewrite E12 in B12. cbn [fst snd] in B12.
  rewrite (bind_Ret _ _ _ _ _ B12).
  rewrite (bind_index [d0; d1] 0 d0 _ _ eq_refl).
  rewrite (bind_Ret _ _ _ _ _
             (add_plus_minus_ok d0 _ (drew_valid _ _ _ W1))).
  rewrite bind_modify.
  change (set_dealer (Some [d0; d1])
            (set_plus_minus_sum
               (plus_minus_sum (set_dealer D (set_player P e2)) + weight d0)
               (set_dealer D (set_player P e2))))
    with (set_dealer (Some [d0; d1])
            (set_player P (set_dealer (Some [d0; d1]) (counted d0 e2)))).
  pose proof (draw_hand_hands (Some [d0; d1]) P
                (set_dealer (Some [d0; d1]) (counted d0 e2))) as B34.
  rewrite E34 in B34. cbn [fst snd] in B34.
  rewrite (bind_Ret _ _ _ _ _ B34).
  rewrite (bind_index [p0; p1] 0 p0 _ _ eq_refl).
  rewrite (bind_Ret _ _ _ _ _
             (add_plus_minus_ok p0 _ (drew_valid _ _ _ W3))).
  rewrite (bind_index [p0; p1] 1 p1 _ _ eq_refl).
  rewrite (bind_Ret _ _ _ _ _
             (add_plus_minus_ok p1 _ (drew_valid _ _ _ W4))).
  rewrite bind_modify.
  assert (De : dealer e4 = Some [d0; d1]).
  { rewrite (drew_dealer _ _ _ W4), (drew_dealer _ _ _ W3). reflexivity. }
  match goal with
  | |- _get_obs ?x = _ =>
      assert (X : x = set_player (Some [p0; p1]) (counted p1 (counted p0 e4)))
  end.
  { unfold counted, set_player, set_dealer, set_plus_minus_sum. cbn.
    rewrite De. reflexivity. }
  rewrite X.
  set (e' := set_player (Some [p0; p1]) (counted p1 (counted p0 e4))).
  assert (De' : dealer e' = Some [d0; d1]) by (cbn; exact De).
  rewrite (get_obs_ok e' [p0; p1] [d0; d1] d0 eq_refl De' eq_refl).
  cbn [plus_minus_sum e' set_player counted set_plus_minus_sum].
  rewrite S4. reflexivity.
Qed.

(** X7: [reset()] reads nothing of the object but the generator and the two
    flags: two objects that agree on these return the same observation and
    end in the same state, whatever their hands, count, flag, deck and
    discard list; so after [seed] with a generator, [reset()] does what it
    does on a new object made with that generator. *)
Theorem reset_forgets (e1 e2 : env) :
  np_random e1 = np_random e2 -> natural e1 = natural e2 ->
  sab e1 = sab e2 ->
  reset e1 = reset e2 /\
  forall r, reset (snd (seed r e1)) = reset (init (natural e2) (sab e2) r).
Proof.
  intros R N S.
  assert (G : forall a b,
             np_random a = np_random b -> natural a = natural b ->
             sab a = sab b -> reset a = reset b).
  { intros a b Ra Na Sa.
    rewrite <- (reset_hands (dealer a) (player a) b).
    rewrite !reset_eq.
    assert (St : reset_start a
                 = reset_start (set_dealer (dealer a) (set_player (player a) b))).
    { unfold reset_start, set_plus_minus_sum, set_folded_cards, set_deck,
        set_amount_of_cards_lower_than_15, set_dealer, set_player.
      cbn [dealer player plus_minus_sum amount_of_cards_lower_than_15 deck
           folded_cards np_random natural sab].
      rewrite Ra, Na, Sa. reflexivity. }
    rewrite St. reflexivity. }
  split; [exact (G e1 e2 R N S)|].
  intros r. apply G; cbn; auto.
Qed.

Lemma reset_forgets_witness :
  reset (run 17 [1; 1; 0] (snd (reset (init true false (const_rng 3)))))
  = reset (init true false
             (np_random
                (run 17 [1; 1; 0]
                   (snd (reset (init true false (const_rng 3)))))))
  /\
  forall r,
    reset (snd (seed r (run 17 [1; 1; 0]
                          (snd (reset (init true false (const_rng 3)))))))
    = reset (init true false r).
Proof.
  apply (reset_forgets
           (run 17 [1; 1; 0] (snd (reset (init true false (const_rng 3)))))
           (init true false
              (np_random
                 (run 17 [1; 1; 0]
                    (snd (reset (init true false (const_rng 3)))))))).
  - reflexivity.
  - reflexivity.
  - reflexivity.
Defined.

Lemma two_card_hand (a b : Z) :
  valid_card a -> valid_card b ->
  4 <= _sum_hand [a; b] <= 21 /\ _is_bust [a; b] = false /\
  (_usable_ace [a; b] = true <-> a = 1 \/ b = 1) /\
  (_usable_ace [a; b] = true -> 12 <= _sum_hand [a; b]).
Proof.
  unfold valid_card. intros Va Vb.
  assert (S2 : sum [a; b] = a + b).
  { rewrite !sum_cons. change (sum []) with 0. lia. }
  assert (U : _usable_ace [a; b] = (1 =? a) || (1 =? b)).
  { unfold _usable_ace, contains.
    change (existsb (Z.eqb 1) [a; b]) with ((1 =? a) || ((1 =? b) || false)).
    rewrite S2, orb_false_r.
    destruct (Z.eqb_spec 1 a), (Z.eqb_spec 1 b); cbn [orb andb];
      try reflexivity; apply Z.leb_le; lia. }
  unfold _is_bust, _sum_hand. rewrite U, S2, Z.gtb_ltb.
  destruct (Z.eqb_spec 1 a), (Z.eqb_spec 1 b); simpl orb; cbv iota;
    (split; [lia|]); (split; [apply Z.ltb_ge; lia|]);
    (split; [split; [first [discriminate|intros _; lia]
                    |first [intros _; reflexivity|lia]]
            |first [discriminate|intros _; lia]]).
Qed.

(** X8: [reset()] returns, in every state, an observation of a deal that
    is not bust: the player's total of two cards lies between 4 and 21, and
    is 12 or more with a usable ace, which the player holds exactly when one
    of the two cards is an ace; the second component is the dealer's first
    card; the count is that of the new state and lies between -3 and 3; 48
    cards are left and the flag is unset. *)
Theorem reset_observation (e : env) :
  exists total up ace c d1 p0 p1 e',
    reset e = (Ret (total, up, ace, c), e') /\
    dealer e' = Some [up; d1] /\ player e' = Some [p0; p1] /\
    total = _sum_hand [p0; p1] /\ 4 <= total <= 21 /\
    ace = ((1 =? p0) || (1 =? p1)) /\ (ace = false \/ 12 <= total) /\
    1 <= up <= 10 /\ c = plus_minus_sum e' /\ -3 <= c <= 3 /\
    _is_bust [p0; p1] = false /\ _is_bust [up; d1] = false /\
    length (deck e') = 48%nat /\ amount_of_cards_lower_than_15 e' = false.
Proof.
  destruct (reset_ok e) as (d0 & d1 & p0 & p1 & e' & E & T).
  pose proof (dealt_valid _ _ _ _ _ _ T) as V.
  inversion V as [|? ? V0 V']; subst. inversion V' as [|? ? V1 V'']; subst.
  inversion V'' as [|? ? V2 V3]; subst. inversion V3 as [|? ? V4 _]; subst.
  destruct (two_card_hand p0 p1 V2 V4) as (B & Nb & U & U12).
  destruct (two_card_hand d0 d1 V0 V1) as (_ & Nd & _ & _).
  pose proof (weight_bounds d0). pose proof (weight_bounds p0).
  pose proof (weight_bounds p1).
  exists (_sum_hand [p0; p1]), d0, (_usable_ace [p0; p1]),
    (weight d0 + weight p0 + weight p1), d1, p0, p1, e'.
  split; [exact E|].
  split; [exact (dealt_dealer _ _ _ _ _ _ T)|].
  split; [exact (dealt_player _ _ _ _ _ _ T)|].
  split; [reflexivity|]. split; [exact B|].
  split.
  { destruct (Z.eqb_spec 1 p0) as [A|A];
      [|destruct (Z.eqb_spec 1 p1) as [A'|A']]; cbn [orb];
      try (apply (proj2 U); lia).
    destruct (_usable_ace [p0; p1]); [|reflexivity].
    destruct (proj1 U eq_refl); lia. }
  split.
  { destruct (_usable_ace [p0; p1]);
      [right; apply U12; reflexivity|left; reflexivity]. }
  split; [exact V0|].
  split; [symmetry; exact (dealt_sum _ _ _ _ _ _ T)|].
  split; [lia|]. split; [exact Nb|]. split; [exact Nd|].
  split; [exact (dealt_deck _ _ _ _ _ _ T)|exact (dealt_flag _ _ _ _ _ _ T)].
Qed.

(** * Further properties of step *)

Lemma hit_not_bust (p : list Z) (card : Z) :
  valid_card card -> _usable_ace p = true \/ _sum_hand p <= 11 ->
  _is_bust (p ++ [card]) = false.
Proof.
  unfold valid_card. intros V H.
  assert (S11 : sum p <= 11).
  { destruct H as [U|L].
    - apply usable_ace_true in U. lia.
    - pose proof (sum_le_sum_hand p). lia. }
  assert (S' : sum (p ++ [card]) = sum p + card).
  { rewrite sum_app, sum_cons. change (sum []) with 0. lia. }
  unfold _is_bust, _sum_hand. rewrite Z.gtb_ltb. apply Z.ltb_ge.
  destruct (_usable_ace (p ++ [card])) eqn:U'.
  - apply usable_ace_true in U'. lia.
  - lia.
Qed.

(** X9: in a reachable state with the hands dealt, a hit returns whatever
    the fuel and the flags: it draws one card of the ranks 1 to 10 to the
    player, leaves the dealer's hand and the flags alone, adds the weight of
    the card to the count (zeroed first when the draw reshuffles), and
    returns the reward -1 with [done] set when the new hand is bust, 0 with
    [done] unset otherwise; the observation holds the new total, the
    dealer's first card, the new usable ace and the new count. *)
Theorem hit_outcome (e : env) (fuel : nat) (p d : list Z) :
  reachable e -> player e = Some p -> dealer e = Some d ->
  exists card up e',
    step fuel 1 e =
    (Ret (_sum_hand (p ++ [card]), up, _usable_ace (p ++ [card]),
          plus_minus_sum e',
          (if _is_bust (p ++ [card]) then (-1)%Q else 0%Q),
          _is_bust (p ++ [card])), e') /\
    nth_error d 0 = Some up /\ 1 <= card <= 10 /\
    player e' = Some (p ++ [card]) /\ dealer e' = Some d /\
    natural e' = natural e /\ sab e' = sab e /\
    plus_minus_sum e' =
    (if amount_of_cards_lower_than_15 e then 0 else plus_minus_sum e)
    + weight card.
Proof.
  intros R P D. pose proof (reachable_inv e R) as I.
  destruct (inv_in_play e p d I P D) as (H & Ld & Lp & Vd & Vp).
  destruct (upcard_exists d Ld) as [up U].
  destruct (step_hit_ok fuel e p d up H P D U) as (card & e1 & W & E).
  exists card, up, (set_player (Some (p ++ [card])) (counted card e1)).
  split; [exact E|].
  split; [exact U|]. split; [exact (drew_valid _ _ _ W)|].
  split; [reflexivity|].
  split; [cbn; rewrite (drew_dealer _ _ _ W); exact D|].
  split; [cbn; exact (drew_natural _ _ _ W)|].
  split; [cbn; exact (drew_sab _ _ _ W)|].
  cbn. rewrite (drew_sum _ _ _ W). unfold pre_draw.
  destruct (amount_of_cards_lower_than_15 e); reflexivity.
Qed.

Lemma hit_outcome_witness :
  exists card up e',
    step 0 1 (snd (reset (init true true (script_rng [9; 6; 8; 7; 4]%nat)))) =
    (Ret (_sum_hand ([10; 9] ++ [card]), up, _usable_ace ([10; 9] ++ [card]),
          plus_minus_sum e',
          (if _is_bust ([10; 9]%Z ++ [card]) then (-1)%Q else 0%Q),
          _is_bust ([10; 9] ++ [card])), e') /\
    nth_error [10; 7] 0 = Some up /\ 1 <= card <= 10 /\
    player e' = Some ([10; 9] ++ [card]) /\ dealer e' = Some [10; 7] /\
    natural e' =
    natural (snd (reset (init true true (script_rng [9; 6; 8; 7; 4]%nat)))) /\
    sab e' =
    sab (snd (reset (init true true (script_rng [9; 6; 8; 7; 4]%nat)))) /\
    plus_minus_sum e' =
    (if amount_of_cards_lower_than_15
          (snd (reset (init true true (script_rng [9; 6; 8; 7; 4]%nat))))
     then 0
     else plus_minus_sum
            (snd (reset (init true true (script_rng [9; 6; 8; 7; 4]%nat)))))
    + weight card.
Proof.
  apply (hit_outcome
           (snd (reset (init true true (script_rng [9; 6; 8; 7; 4]%nat))))
           0 [10; 9] [10; 7]).
  - apply reachable_reset, reach_init.
  - reflexivity.
  - reflexivity.
Defined.

(** X10: in a reachable state, a hit on a hand with a usable ace, or on a
    total of 11 or less, never busts: it returns the reward 0 with [done]
    unset. *)
Theorem hit_safe (e : env) (fuel : nat) (p : list Z) :
  reachable e -> player e = Some p ->
  _usable_ace p = true \/ _sum_hand p <= 11 ->
  exists o e', step fuel 1 e = (Ret (o, 0%Q, false), e').
Proof.
  intros R P S. pose proof (reachable_inv e R) as I.
  destruct (inv_dealer_of_player e p I P) as [d D].
  destruct (inv_in_play e p d I P D) as (H & Ld & Lp & Vd & Vp).
  destruct (upcard_exists d Ld) as [up U].
  destruct (step_hit_ok fuel e p d up H P D U) as (card & e1 & W & E).
  pose proof (hit_not_bust p card (drew_valid _ _ _ W) S) as Nb.
  unfold hit_reward in E. rewrite Nb in E. eauto.
Qed.

Lemma hit_safe_witness :
  exists o e',
    step 3 1 (snd (reset (init false false (script_rng [0; 4; 0; 5]%nat))))
    = (Ret (o, 0%Q, false), e').
Proof.
  apply (hit_safe
           (snd (reset (init false false (script_rng [0; 4; 0; 5]%nat))))
           3 [2; 9]).
  - apply reachable_reset, reach_init.
  - reflexivity.
  - right. vm_compute. discriminate.
Defined.

(** X11: in a reachable state with the hands dealt, every action of the
    action space returns an observation of the state it leaves: the total
    and the usable ace of the player's new hand, the dealer's first card,
    which no action changes, and the new count. The hands only grow at
    their end: a stick adds nothing to the player's hand, a hit and a double
    add one card to it, a hit adds nothing to the dealer's hand, and after a
    stick or a double [done] is set and the dealer holds 17 or more. *)
Theorem step_observation (e : env) (fuel : nat) (a : Z) (p d : list Z) :
  reachable e -> player e = Some p -> dealer e = Some d ->
  (17 <= fuel)%nat -> action_space_contains a = true ->
  exists pp dd up r dn e',
    step fuel a e =
    (Ret (_sum_hand (p ++ pp), up, _usable_ace (p ++ pp), plus_minus_sum e',
          r, dn), e') /\
    player e' = Some (p ++ pp) /\ dealer e' = Some (d ++ dd) /\
    nth_error d 0 = Some up /\ nth_error (d ++ dd) 0 = Some up /\
    length pp = (if a =? 0 then 0%nat else 1%nat) /\
    (a = 1 -> dd = []) /\
    (a <> 1 -> dn = true /\ 17 <= _sum_hand (d ++ dd)).
Proof.
  intros R P D F C. pose proof (reachable_inv e R) as I.
  destruct (inv_in_play e p d I P D) as (H & Ld & Lp & Vd & Vp).
  destruct (upcard_exists d Ld) as [up U].
  pose proof (fuel_enough fuel d F Vd) as F'.
  assert (U' : forall dd, nth_error (d ++ dd) 0 = Some up).
  { intros dd. destruct d; [discriminate U|exact U]. }
  destruct (action_cases a C) as [->|[->| ->]].
  - destruct (step_stick_ok fuel e p d up H P D Vd U F')
      as (drawn & e' & L & _ & E).
    exists [], drawn, up. eexists. exists true, e'.
    rewrite app_nil_r.
    split; [exact E|].
    split; [rewrite (played_player _ _ _ _ L); exact P|].
    split; [exact (played_dealer _ _ _ _ L)|].
    split; [exact U|]. split; [apply U'|]. split; [reflexivity|].
    split; [discriminate|].
    intros _. split; [reflexivity|exact (played_stands _ _ _ _ L)].
  - destruct (step_hit_ok fuel e p d up H P D U) as (card & e1 & W & E).
    exists [card], [], up. eexists. eexists.
    exists (set_player (Some (p ++ [card])) (counted card e1)).
    split; [exact E|]. split; [reflexivity|].
    split; [cbn; rewrite (drew_dealer _ _ _ W), app_nil_r; exact D|].
    split; [exact U|]. split; [apply U'|]. split; [reflexivity|].
    split; [reflexivity|]. intros N. congruence.
  - destruct (step_double_ok fuel e p d up H P D Vd U F')
      as (card & e1 & drawn & e' & W & L & E).
    exists [card], drawn, up. eexists. exists true, e'.
    split; [exact E|].
    split; [rewrite (played_player _ _ _ _ L); reflexivity|].
    split; [exact (played_dealer _ _ _ _ L)|].
    split; [exact U|]. split; [apply U'|]. split; [reflexivity|].
    split; [discriminate|].
    intros _. split; [reflexivity|exact (played_stands _ _ _ _ L)].
Qed.

Lemma step_observation_witness :
  exists pp dd up r dn e',
    step 17 2 (snd (reset (init false false (script_rng [1; 1; 0; 6]%nat)))) =
    (Ret (_sum_hand ([1; 10] ++ pp), up, _usable_ace ([1; 10] ++ pp),
          plus_minus_sum e', r, dn), e') /\
    player e' = Some ([1; 10] ++ pp) /\ dealer e' = Some ([2; 3] ++ dd) /\
    nth_error [2; 3] 0 = Some up /\ nth_error ([2; 3] ++ dd) 0 = Some up /\
    length pp = (if 2 =? 0 then 0%nat else 1%nat) /\
    (2 = 1 -> dd = []) /\
    (2 <> 1 -> dn = true /\ 17 <= _sum_hand ([2; 3] ++ dd)).
Proof.
  apply (step_observation
           (snd (reset (init false false (script_rng [1; 1; 0; 6]%nat))))
           17 2 [1; 10] [2; 3]).
  - apply reachable_reset, reach_init.
  - reflexivity.
  - reflexivity.
  - lia.
  - reflexivity.
Defined.

Lemma below_17_facts (p : list Z) :
  Forall valid_card p -> (2 <= length p)%nat -> _sum_hand p < 17 ->
  _is_natural p = false /\ 2 <= _score p < 17.
Proof.
  intros V L S. split.
  - destruct (_is_natural p) eqn:N; [|reflexivity].
    apply is_natural_iff in N. destruct N as [->| ->]; vm_compute in S;
      discriminate S.
  - pose proof (sum_valid_lower p V). pose proof (sum_le_sum_hand p).
    unfold _score, _is_bust. rewrite Z.gtb_ltb.
    destruct (Z.ltb_spec 21 (_sum_hand p)); lia.
Qed.

(** X12: in a reachable state, a stick on a player's total below 17 is
    decided by the dealer alone, whatever the flags: the reward is 1 when
    the dealer's final hand is bust and -1 when it is not; it is never
    0. *)
Theorem stick_below_17 (e : env) (fuel : nat) (p d : list Z) :
  reachable e -> player e = Some p -> dealer e = Some d ->
  (17 <= fuel)%nat -> _sum_hand p < 17 ->
  exists drawn o r e',
    step fuel 0 e = (Ret (o, r, true), e') /\
    dealer e' = Some (d ++ drawn) /\
    ((_is_bust (d ++ drawn) = true /\ r = 1%Q) \/
     (_is_bust (d ++ drawn) = false /\ r = (-1)%Q)).
Proof.
  intros R P D F S. pose proof (reachable_inv e R) as I.
  destruct (inv_in_play e p d I P D) as (H & Ld & Lp & Vd & Vp).
  destruct (upcard_exists d Ld) as [up U].
  pose proof (fuel_enough fuel d F Vd) as F'.
  destruct (step_stick_ok fuel e p d up H P D Vd U F')
    as (drawn & e' & L & _ & E).
  destruct (below_17_facts p Vp Lp S) as [Nn Sc].
  rewrite (rule_variant_not_natural _ _ _ _ _ Nn) in E.
  exists drawn. eexists. eexists. exists e'.
  split; [exact E|]. split; [exact (played_dealer _ _ _ _ L)|].
  pose proof (played_stands _ _ _ _ L) as G.
  destruct (_is_bust (d ++ drawn)) eqn:B.
  - left. split; [reflexivity|]. rewrite (score_bust _ B).
    destruct (cmp_cases (_score p) 0) as [[_ ->]|[[C _]|[C _]]];
      [reflexivity|lia|lia].
  - right. split; [reflexivity|]. rewrite (score_not_bust _ B).
    destruct (cmp_cases (_score p) (_sum_hand (d ++ drawn)))
      as [[C _]|[[C _]|[_ ->]]]; [lia|lia|reflexivity].
Qed.

Lemma stick_below_17_witness :
  exists drawn o r e',
    step 17 0 (snd (reset (init true true (const_rng 0))))
    = (Ret (o, r, true), e') /\
    dealer e' = Some ([1; 2] ++ drawn) /\
    ((_is_bust ([1; 2] ++ drawn) = true /\ r = 1%Q) \/
     (_is_bust ([1; 2] ++ drawn) = false /\ r = (-1)%Q)).
Proof.
  apply (stick_below_17 (snd (reset (init true true (const_rng 0))))
                        17 [3; 4] [1; 2]).
  - apply reachable_reset, reach_init.
  - reflexivity.
  - reflexivity.
  - lia.
  - vm_compute. reflexivity.
Defined.

(** A stick when the dealer already holds 17 or more. *)
Lemma step_stick_stand (fuel : nat) (e : env) (p d : list Z) (up : Z) :
  player e = Some p -> dealer e = Some d -> nth_error d 0 = Some up ->
  17 <= _sum_hand d ->
  step fuel 0 e =
  (Ret (_sum_hand p, up, _usable_ace p, plus_minus_sum e,
        rule_variant (sab e) (natural e) p d (cmp (_score p) (_score d)),
        true),
   e).
Proof.
  intros P D U G.
  rewrite step_stick_eq. unfold bind at 1. unfold bind at 1.
  rewrite (dealer_loop_stand fuel e d D G).
  unfold hand_arg, bind, gets, lift, ret. rewrite P, D. cbv beta iota.
  rewrite (get_obs_ok e p d up P D U). reflexivity.
Qed.

(** X13: in a reachable state with the hands dealt, a stick that follows a
    stick changes nothing and returns what the first returned, whatever the
    fuel: the dealer already holds 17 or more and draws no card. *)
Theorem stick_twice (e : env) (fuel : nat) (p : list Z) :
  reachable e -> player e = Some p -> (17 <= fuel)%nat ->
  exists r e',
    step fuel 0 e = (Ret r, e') /\
    forall fuel', step fuel' 0 e' = (Ret r, e').
Proof.
  intros R P F. pose proof (reachable_inv e R) as I.
  destruct (inv_dealer_of_player e p I P) as [d D].
  destruct (inv_in_play e p d I P D) as (H & Ld & Lp & Vd & Vp).
  destruct (upcard_exists d Ld) as [up U].
  pose proof (fuel_enough fuel d F Vd) as F'.
  destruct (step_stick_ok fuel e p d up H P D Vd U F')
    as (drawn & e' & L & _ & E).
  eexists. exists e'. split; [exact E|]. intros fuel'.
  pose proof (played_stands _ _ _ _ L) as G.
  assert (P' : player e' = Some p).
  { rewrite (played_player _ _ _ _ L). exact P. }
  assert (U' : nth_error (d ++ drawn) 0 = Some up).
  { destruct d; [discriminate U|exact U]. }
  rewrite (step_stick_stand fuel' e' p (d ++ drawn) up P'
             (played_dealer _ _ _ _ L) U' G).
  rewrite (played_natural _ _ _ _ L), (played_sab _ _ _ _ L). reflexivity.
Qed.

Lemma stick_twice_witness :
  exists r e',
    step 17 0 (snd (reset (init true false (script_rng [1; 1; 0; 6]%nat))))
    = (Ret r, e') /\
    forall fuel', step fuel' 0 e' = (Ret r, e').
Proof.
  apply (stick_twice
           (snd (reset (init true false (script_rng [1; 1; 0; 6]%nat))))
           17 [1; 10]).
  - apply reachable_reset, reach_init.
  - reflexivity.
  - lia.
Defined.

(** X14: in a reachable state with the hands dealt, the reward of a stick is
    -1, 0, 1 or 1.5; it is 1.5 only with [natural] set, [sab] unset and a
    natural in the player's hand, so [sab] overrides [natural]; with both
    flags unset it is [cmp] of the two scores. *)
Theorem stick_reward_range (e : env) (fuel : nat) (p d : list Z) :
  reachable e -> player e = Some p -> dealer e = Some d ->
  (17 <= fuel)%nat ->
  exists drawn o r e',
    step fuel 0 e = (Ret (o, r, true), e') /\
    dealer e' = Some (d ++ drawn) /\
    (r = (-1)%Q \/ r = 0%Q \/ r = 1%Q \/ r = (3 # 2)%Q) /\
    (r = (3 # 2)%Q ->
     natural e = true /\ sab e = false /\ _is_natural p = true) /\
    (natural e = false -> sab e = false ->
     r = cmp (_score p) (_score (d ++ drawn))).
Proof.
  intros R P D F. pose proof (reachable_inv e R) as I.
  destruct (inv_in_play e p d I P D) as (H & Ld & Lp & Vd & Vp).
  destruct (upcard_exists d Ld) as [up U].
  pose proof (fuel_enough fuel d F Vd) as F'.
  destruct (step_stick_ok fuel e p d up H P D Vd U F')
    as (drawn & e' & L & _ & E).
  exists drawn. eexists. eexists. exists e'.
  split; [exact E|]. split; [exact (played_dealer _ _ _ _ L)|].
  unfold rule_variant.
  destruct (sab e), (natural e), (_is_natural p), (_is_natural (d ++ drawn));
    cbn [andb negb];
    destruct (cmp_cases (_score p) (_score (d ++ drawn)))
      as [[_ ->]|[[_ ->]|[_ ->]]]; cbn;
    (split; [tauto|]); split; auto; try discriminate;
    intros; discriminate.
Qed.

Lemma stick_reward_range_witness :
  exists drawn o r e',
    step 17 0 (snd (reset (init true false (script_rng [1; 1; 0; 6]%nat))))
    = (Ret (o, r, true), e') /\
    dealer e' = Some ([2; 3] ++ drawn) /\
    (r = (-1)%Q \/ r = 0%Q \/ r = 1%Q \/ r = (3 # 2)%Q) /\
    (r = (3 # 2)%Q ->
     natural (snd (reset (init true false (script_rng [1; 1; 0; 6]%nat))))
     = true /\
     sab (snd (reset (init true false (script_rng [1; 1; 0; 6]%nat))))
     = false /\
     _is_natural [1; 10] = true) /\
    (natural (snd (reset (init true false (script_rng [1; 1; 0; 6]%nat))))
     = false ->
     sab (snd (reset (init true false (script_rng [1; 1; 0; 6]%nat))))
     = false ->
     r = cmp (_score [1; 10]) (_score ([2; 3] ++ drawn))).
Proof.
  apply (stick_reward_range
           (snd (reset (init true false (script_rng [1; 1; 0; 6]%nat))))
           17 [1; 10] [2; 3]).
  - apply reachable_reset, reach_init.
  - reflexivity.
  - reflexivity.
  - lia.
Defined.

(** A call of [step] with the hands not dealt yet, with the state it
    leaves. *)
Lemma step_None_state (fuel : nat) (a : Z) (e : env) :
  shoe_ok e -> player e = None -> dealer e = None ->
  (a <> 1 -> a <> 2 -> exists x, step fuel a e = (Raise x, e)) /\
  (a = 1 \/ a = 2 ->
   exists card e1,
     drew e card e1 /\
     step fuel a e = (Raise AttributeError, counted card e1)).
Proof.
  intros H P D. split.
  - intros N1 N2. destruct (action_space_contains a) eqn:C.
    + destruct (action_cases a C) as [->|[->| ->]]; try congruence.
      exists TypeError.
      rewrite step_stick_eq. unfold bind at 1. unfold bind at 1.
      rewrite (dealer_loop_None fuel e D). reflexivity.
    + exists AssertionError. apply step_bad_action, C.
  - intros A. destruct (deal_player_None e H P) as (card & e1 & W & K).
    exists card, e1. split; [exact W|].
    destruct A as [->| ->].
    + rewrite step_hit_eq. unfold bind at 1. rewrite K. reflexivity.
    + rewrite step_double_eq. unfold bind at 1. rewrite K. reflexivity.
Qed.

(** X15: before the first [reset()], in a reachable state, a stick raises
    [TypeError] and changes nothing, but a hit or a double raises
    [AttributeError] only after a card has been drawn and counted: the call
    fails and leaves the shoe one card shorter, the card in the discard
    list and its weight in the count, the hands still not dealt. *)
Theorem step_before_reset (e : env) (fuel : nat) :
  reachable e -> player e = None ->
  step fuel 0 e = (Raise TypeError, e) /\
  forall a, a = 1 \/ a = 2 ->
    exists card e',
      step fuel a e = (Raise AttributeError, e') /\
      In card (deck (pre_draw e)) /\
      S (length (deck e')) = length (deck (pre_draw e)) /\
      folded_cards e' = folded_cards (pre_draw e) ++ [card] /\
      plus_minus_sum e' = plus_minus_sum (pre_draw e) + weight card /\
      player e' = None /\ dealer e' = None.
Proof.
  intros R P. pose proof (reachable_inv e R) as [H Hh].
  assert (D : dealer e = None).
  { destruct Hh as [D0 _|d p D0 P0 _ _ _ _]; [exact D0|congruence]. }
  split.
  - rewrite step_stick_eq. unfold bind at 1. unfold bind at 1.
    rewrite (dealer_loop_None fuel e D). reflexivity.
  - intros a A.
    destruct (proj2 (step_None_state fuel a e H P D) A) as (card & e1 & W & E).
    exists card, (counted card e1). split; [exact E|].
    split; [exact (drew_in _ _ _ W)|].
    split; [exact (drew_size _ _ _ W)|].
    split; [exact (drew_folded _ _ _ W)|].
    split; [cbn; rewrite (drew_sum _ _ _ W); reflexivity|].
    split; cbn; [rewrite (drew_player _ _ _ W)|rewrite (drew_dealer _ _ _ W)];
      assumption.
Qed.

Lemma step_before_reset_witness :
  step 17 0 (init false false (const_rng 0))
  = (Raise TypeError, init false false (const_rng 0)) /\
  forall a, a = 1 \/ a = 2 ->
    exists card e',
      step 17 a (init false false (const_rng 0))
      = (Raise AttributeError, e') /\
      In card (deck (pre_draw (init false false (const_rng 0)))) /\
      S (length (deck e'))
      = length (deck (pre_draw (init false false (const_rng 0)))) /\
      folded_cards e'
      = folded_cards (pre_draw (init false false (const_rng 0))) ++ [card] /\
      plus_minus_sum e'
      = plus_minus_sum (pre_draw (init false false (const_rng 0)))
        + weight card /\
      player e' = None /\ dealer e' = None.
Proof.
  apply (step_before_reset (init false false (const_rng 0)) 17).
  - apply reach_init.
  - reflexivity.
Defined.

(** * The books of the shoe *)

Lemma list_remove_perm (c : Z) (l l' : list Z) :
  list_remove c l = Some l' -> Permutation l (c :: l').
Proof.
  revert l'. induction l as [|y l IH]; simpl; intros l' H; [discriminate|].
  destruct (Z.eqb_spec c y) as [->|N].
  - injection H as <-. apply Permutation_refl.
  - destruct (list_remove c l) as [r|]; [|discriminate].
    injection H as <-.
    apply (perm_trans (perm_skip y (IH r eq_refl))). apply perm_swap.
Qed.

Lemma drew_remove (e : env) (c : Z) (e1 : env) :
  drew e c e1 -> list_remove c (deck (pre_draw e)) = Some (deck e1).
Proof.
  intros W. pose proof (drew_eq _ _ _ W) as E.
  rewrite draw_card_eq in E. cbv zeta in E.
  destruct (choice (np_random (pre_draw e)) (deck (pre_draw e)))
    as [[c' r]|]; [|discriminate E].
  destruct (list_remove c' (deck (pre_draw e))) as [dk|] eqn:Rm;
    [|discriminate E].
  injection E as Ec Ee. subst c' e1. exact Rm.
Qed.

Lemma lows_app (l1 l2 : list Z) : lows (l1 ++ l2) = lows l1 + lows l2.
Proof. unfold lows. rewrite map_app, sum_app. reflexivity. Qed.

Lemma highs_app (l1 l2 : list Z) : highs (l1 ++ l2) = highs l1 + highs l2.
Proof. unfold highs. rewrite map_app, sum_app. reflexivity. Qed.

Lemma lows_one (c : Z) : lows [c] = low_part c.
Proof. unfold lows. simpl map. rewrite sum_cons. change (sum []) with 0. lia. Qed.

Lemma highs_one (c : Z) : highs [c] = high_part c.
Proof. unfold highs. simpl map. rewrite sum_cons. change (sum []) with 0. lia. Qed.

Lemma lows_nonneg (l : list Z) : 0 <= lows l.
Proof.
  unfold lows. induction l as [|c l IH]; [reflexivity|].
  simpl map. rewrite sum_cons. unfold low_part at 1. lia.
Qed.

Lemma highs_nonneg (l : list Z) : 0 <= highs l.
Proof.
  unfold highs. induction l as [|c l IH]; [reflexivity|].
  simpl map. rewrite sum_cons. unfold high_part at 1. lia.
Qed.

Lemma lows_perm (l l' : list Z) : Permutation l l' -> lows l = lows l'.
Proof. intros P. apply sum_perm, Permutation_map, P. Qed.

Lemma highs_perm (l l' : list Z) : Permutation l l' -> highs l = highs l'.
Proof. intros P. apply sum_perm, Permutation_map, P. Qed.

Lemma ledger_pre_draw (e : env) : ledger 0 0 e -> ledger 0 0 (pre_draw e).
Proof.
  intros L. unfold pre_draw.
  destruct (amount_of_cards_lower_than_15 e); [|exact L].
  split; [apply Permutation_refl|reflexivity|reflexivity].
Qed.

(** A draw keeps the books; the card is discarded and not counted yet. *)
Lemma ledger_draw (a b : Z) (e : env) (c : Z) (e1 : env) :
  ledger a b e -> pre_draw e = e \/ (a = 0 /\ b = 0) -> drew e c e1 ->
  ledger (a + high_part c) (b + low_part c) e1.
Proof.
  intros L Hp W.
  assert (L0 : ledger a b (pre_draw e)).
  { destruct Hp as [->|[-> ->]]; [exact L|apply ledger_pre_draw, L]. }
  destruct L0 as [Pm Lo Hi].
  pose proof (list_remove_perm _ _ _ (drew_remove _ _ _ W)) as Pr.
  split.
  - rewrite (drew_folded _ _ _ W), app_assoc.
    apply (perm_trans (Permutation_sym (Permutation_cons_append _ c))).
    apply (perm_trans (l' := deck (pre_draw e) ++ folded_cards (pre_draw e)));
      [|exact Pm].
    change (Permutation ((c :: deck e1) ++ folded_cards (pre_draw e))
              (deck (pre_draw e) ++ folded_cards (pre_draw e))).
    apply Permutation_app_tail, Permutation_sym, Pr.
  - rewrite (drew_folded _ _ _ W), (drew_sum _ _ _ W), highs_app, highs_one.
    lia.
  - rewrite (drew_folded _ _ _ W), (drew_sum _ _ _ W), lows_app, lows_one.
    lia.
Qed.

(** Counting a discarded card uses up its margin. *)
Lemma ledger_count (a b a' b' : Z) (e : env) (c : Z) :
  ledger a' b' e -> a + high_part c <= a' -> b + low_part c <= b' ->
  ledger a b (counted c e).
Proof.
  intros [Pm Lo Hi] A B. unfold high_part in A. unfold low_part in B.
  split; unfold counted, set_plus_minus_sum;
    cbn [deck folded_cards plus_minus_sum]; [exact Pm|lia|lia].
Qed.

Lemma ledger_deal (e : env) (c : Z) (e1 : env) :
  ledger 0 0 e -> drew e c e1 -> ledger 0 0 (counted c e1).
Proof.
  intros L W.
  apply (ledger_count 0 0 _ _ e1 c (ledger_draw 0 0 e c e1 L (or_intror (conj eq_refl eq_refl)) W));
    lia.
Qed.

Lemma ledger_set_dealer (a b : Z) (h : option (list Z)) (e : env) :
  ledger a b e -> ledger a b (set_dealer h e).
Proof. intros [Pm Lo Hi]. split; assumption. Qed.

Lemma ledger_set_player (a b : Z) (h : option (list Z)) (e : env) :
  ledger a b e -> ledger a b (set_player h e).
Proof. intros [Pm Lo Hi]. split; assumption. Qed.

Lemma append_total_bound (h : list Z) (c : Z) :
  valid_card c -> _sum_hand h < 17 -> _sum_hand (h ++ [c]) <= 26.
Proof.
  unfold valid_card. intros V S. pose proof (sum_le_sum_hand h).
  assert (S' : sum (h ++ [c]) = sum h + c).
  { rewrite sum_app, sum_cons. change (sum []) with 0. lia. }
  unfold _sum_hand at 1. destruct (_usable_ace (h ++ [c])) eqn:U.
  - apply usable_ace_true in U. lia.
  - lia.
Qed.

(** The dealer's loop keeps the books and the bound of the dealer's total. *)
Lemma dealer_loop_books (fuel : nat) :
  forall (e : env) (d : list Z) (e' : env),
    shoe_ok e -> dealer e = Some d -> _sum_hand d <= 26 -> ledger 0 0 e ->
    dealer_loop fuel e = (Ret tt, e') ->
    ledger 0 0 e' /\ dealer_bound e'.
Proof.
  induction fuel as [|fuel IH]; intros e d e' H D B L E;
    rewrite (dealer_loop_unfold _ e d D) in E;
    destruct (Z.ltb_spec (_sum_hand d) 17) as [Lt|Ge].
  - discriminate E.
  - injection E as <-. split; [exact L|].
    intros d' D'. rewrite D in D'. injection D' as <-. exact B.
  - destruct (deal_dealer e d H D) as (card & e1 & W & K).
    rewrite K in E.
    apply (IH (set_dealer (Some (d ++ [card])) (counted card e1))
              (d ++ [card]) e'); [| reflexivity | | | exact E].
    + apply set_dealer_shoe, counted_shoe, (drew_shoe _ _ _ W).
    + apply append_total_bound; [exact (drew_valid _ _ _ W)|exact Lt].
    + apply ledger_set_dealer, (ledger_deal e card e1 L W).
  - injection E as <-. split; [exact L|].
    intros d' D'. rewrite D in D'. injection D' as <-. exact B.
Qed.

(** A double with the state it leaves and the loop that leads to it. *)
Lemma step_double_trace (fuel : nat) (e : env) (p d : list Z) (up : Z) :
  shoe_ok e -> player e = Some p -> dealer e = Some d ->
  Forall valid_card d -> nth_error d 0 = Some up ->
  17 <= Z.of_nat fuel + sum d ->
  exists card e1 e' r,
    drew e card e1 /\
    dealer_loop fuel (set_player (Some (p ++ [card])) (counted card e1))
    = (Ret tt, e') /\
    step fuel 2 e = (Ret r, e').
Proof.
  intros H P D V U F.
  destruct (deal_player e p H P) as (card & e1 & W & K).
  set (e2 := set_player (Some (p ++ [card])) (counted card e1)) in *.
  assert (H2 : shoe_ok e2).
  { apply set_player_shoe, counted_shoe, (drew_shoe _ _ _ W). }
  assert (D2 : dealer e2 = Some d).
  { cbn. rewrite (drew_dealer _ _ _ W). exact D. }
  destruct (dealer_loop_ok fuel e2 d H2 D2 V F) as (drawn & e' & E & L).
  exists card, e1, e'. eexists. split; [exact W|]. split; [exact E|].
  destruct L as [Ld _ _ _ _ Lp Ln Ls].
  change (player e2) with (Some (p ++ [card])) in Lp.
  assert (U' : nth_error (d ++ drawn) 0 = Some up).
  { destruct d; [discriminate U|exact U]. }
  rewrite step_double_eq. unfold bind at 1. rewrite K.
  unfold bind at 1. rewrite E.
  unfold hand_arg, bind, gets, lift, ret. rewrite Lp, Ld. cbv beta iota.
  rewrite (get_obs_ok e' _ (d ++ drawn) up Lp Ld U'). reflexivity.
Qed.

Lemma reachable_books (e : env) :
  reachable e -> ledger 0 0 e /\ dealer_bound e.
Proof.
  induction 1 as [n s r|e r R IH|e o e' R IH E N|e fuel a o e' R IH E N].
  - split.
    + split; [apply Permutation_refl|reflexivity|reflexivity].
    + intros d D. discriminate D.
  - destruct IH as [[Pm Lo Hi] B]. split; [split; assumption|exact B].
  - destruct (reset_trace e)
      as (d0 & d1 & p0 & p1 & e1 & e2 & e3 & e4 & W1 & W2 & W3 & W4
          & I0 & I1 & I2 & I3 & _ & E').
    rewrite E' in E. injection E as _ <-.
    assert (L0 : ledger 0 0 (reset_start e)).
    { split; [apply Permutation_refl|reflexivity|reflexivity]. }
    pose proof (ledger_draw _ _ _ _ _ L0 (or_introl I0) W1) as L1.
    pose proof (ledger_draw _ _ _ _ _ L1 (or_introl I1) W2) as L2.
    assert (L2' : ledger 0 0 (set_dealer (Some [d0; d1]) (counted d0 e2))).
    { apply ledger_set_dealer. apply (ledger_count 0 0 _ _ e2 d0 L2);
        unfold high_part, low_part; lia. }
    pose proof (ledger_draw _ _ _ _ _ L2' (or_introl I2) W3) as L3.
    pose proof (ledger_draw _ _ _ _ _ L3 (or_introl I3) W4) as L4.
    split.
    + apply ledger_set_player.
      apply (ledger_count 0 0 (high_part p1) (low_part p1)); [|lia|lia].
      apply (ledger_count _ _ _ _ e4 p0 L4); lia.
    + intros d D. cbn in D.
      rewrite (drew_dealer _ _ _ W4), (drew_dealer _ _ _ W3) in D.
      cbn in D. injection D as <-.
      destruct (two_card_hand d0 d1 (drew_valid _ _ _ W1) (drew_valid _ _ _ W2))
        as (T & _). lia.
  - destruct IH as [L B]. pose proof (reachable_inv e R) as [H Hh].
    destruct Hh as [D P|d p D P Ld Lp Vd Vp].
    + destruct (step_None_state fuel a e H P D) as [S0 S12].
      destruct (Z.eq_dec a 1) as [A1|A1];
        [|destruct (Z.eq_dec a 2) as [A2|A2]].
      * destruct (S12 (or_introl A1)) as (card & e1 & W & E1).
        rewrite E1 in E. injection E as _ <-.
        split; [exact (ledger_deal e card e1 L W)|].
        intros d' D'. cbn in D'. rewrite (drew_dealer _ _ _ W), D in D'.
        discriminate D'.
      * destruct (S12 (or_intror A2)) as (card & e1 & W & E1).
        rewrite E1 in E. injection E as _ <-.
        split; [exact (ledger_deal e card e1 L W)|].
        intros d' D'. cbn in D'. rewrite (drew_dealer _ _ _ W), D in D'.
        discriminate D'.
      * destruct (S0 A1 A2) as [x E1].
        rewrite E1 in E. injection E as _ <-. split; assumption.
    + apply (step_mono fuel a e d p o e' H D P) with (k := 17%nat) in E;
        [|exact N].
      destruct (upcard_exists d Ld) as [up U].
      assert (F : 17 <= Z.of_nat (fuel + 17) + sum d).
      { pose proof (sum_valid_lower d Vd). lia. }
      destruct (action_space_contains a) eqn:C.
      * destruct (action_cases a C) as [->|[->| ->]].
        -- destruct (step_stick_ok _ e p d up H P D Vd U F)
             as (drawn & e1 & _ & El & E1).
           rewrite E1 in E. injection E as _ <-.
           exact (dealer_loop_books _ e d e1 H D (B d D) L El).
        -- destruct (step_hit_ok (fuel + 17) e p d up H P D U)
             as (card & e1 & W & E1).
           rewrite E1 in E. injection E as _ <-.
           split; [apply ledger_set_player, (ledger_deal e card e1 L W)|].
           intros d' D'. cbn in D'. rewrite (drew_dealer _ _ _ W) in D'.
           exact (B d' D').
        -- destruct (step_double_trace _ e p d up H P D Vd U F)
             as (card & e1 & e2 & r & W & El & E1).
           rewrite E1 in E. injection E as _ <-.
           apply (dealer_loop_books _ _ d e2) in El; [exact El| | | |].
           ++ apply set_player_shoe, counted_shoe, (drew_shoe _ _ _ W).
           ++ cbn. rewrite (drew_dealer _ _ _ W). exact D.
           ++ exact (B d D).
           ++ apply ledger_set_player, (ledger_deal e card e1 L W).
      * rewrite (step_bad_action _ _ _ C) in E. injection E as _ <-.
        split; assumption.
Qed.

(** X16: in every reachable state the deck and the discard list together
    hold the 52 cards of the full deck, each as many times: a card leaves
    the deck only into the discard list, and both are renewed together; so
    their lengths add up to 52 and the discard list has 38 cards at
    most. *)
Theorem shoe_conservation (e : env) :
  reachable e ->
  Permutation (deck e ++ folded_cards e) fresh_deck /\
  (length (deck e) + length (folded_cards e) = 52)%nat /\
  (length (folded_cards e) <= 38)%nat.
Proof.
  intros R. destruct (reachable_books e R) as [[Pm _ _] _].
  pose proof (shoe_size e (inv_shoe e (reachable_inv e R))) as S.
  pose proof (Permutation_length Pm) as L.
  rewrite length_app, fresh_deck_length in L.
  split; [exact Pm|]. split; [exact L|lia].
Qed.

Lemma shoe_conservation_witness :
  Permutation
    (deck (run 17 [1; 0; 2; 1]%Z (snd (reset (init false true (const_rng 11)))))
     ++ folded_cards
          (run 17 [1; 0; 2; 1]%Z (snd (reset (init false true (const_rng 11))))))
    fresh_deck /\
  (length (deck (run 17 [1; 0; 2; 1]%Z
                   (snd (reset (init false true (const_rng 11)))))) +
   length (folded_cards
             (run 17 [1; 0; 2; 1]%Z
                (snd (reset (init false true (const_rng 11)))))) = 52)%nat /\
  (length (folded_cards
             (run 17 [1; 0; 2; 1]%Z
                (snd (reset (init false true (const_rng 11)))))) <= 38)%nat.
Proof.
  apply (shoe_conservation
           (run 17 [1; 0; 2; 1]%Z (snd (reset (init false true (const_rng 11)))))).
  apply reachable_run; [|lia]. apply reachable_reset, reach_init.
Defined.

(** X17: in every reachable state the running count lies between minus the
    number of aces and tens in the discard list and the number of cards of
    the ranks 2 to 6 in it, hence between -20 and 20. *)
Theorem count_range (e : env) :
  reachable e ->
  - highs (folded_cards e) <= plus_minus_sum e <= lows (folded_cards e) /\
  -20 <= plus_minus_sum e <= 20.
Proof.
  intros R. destruct (reachable_books e R) as [[Pm Lo Hi] _].
  pose proof (lows_perm _ _ Pm) as Pl. pose proof (highs_perm _ _ Pm) as Ph.
  rewrite lows_app in Pl. rewrite highs_app in Ph.
  change (lows fresh_deck) with 20 in Pl.
  change (highs fresh_deck) with 20 in Ph.
  pose proof (lows_nonneg (deck e)). pose proof (highs_nonneg (deck e)).
  lia.
Qed.

Lemma count_range_witness :
  - highs (folded_cards
             (run 17 (repeat 1 30%nat)
                (snd (reset (init false false (const_rng 1))))))
  <= plus_minus_sum
       (run 17 (repeat 1 30%nat)
          (snd (reset (init false false (const_rng 1)))))
  <= lows (folded_cards
             (run 17 (repeat 1 30%nat)
                (snd (reset (init false false (const_rng 1)))))) /\
  -20 <= plus_minus_sum
           (run 17 (repeat 1 30%nat)
              (snd (reset (init false false (const_rng 1)))))
      <= 20.
Proof.
  apply (count_range
           (run 17 (repeat 1 30%nat)
              (snd (reset (init false false (const_rng 1)))))).
  apply reachable_run; [|lia]. apply reachable_reset, reach_init.
Defined.

(** X18: in every reachable state the dealer's hand totals 26 at most; when
    the player sticks, the dealer ends with a total between 17 and 26, so
    with a score of 0, bust, or between 17 and 21. *)
Theorem dealer_final_total (e : env) (fuel : nat) (d : list Z) :
  reachable e -> dealer e = Some d -> (17 <= fuel)%nat ->
  _sum_hand d <= 26 /\
  exists drawn r e',
    step fuel 0 e = (Ret r, e') /\
    dealer e' = Some (d ++ drawn) /\
    17 <= _sum_hand (d ++ drawn) <= 26 /\
    (_score (d ++ drawn) = 0 \/ 17 <= _score (d ++ drawn) <= 21).
Proof.
  intros R D F. pose proof (reachable_inv e R) as I.
  destruct (reachable_books e R) as [_ B].
  split; [exact (B d D)|].
  destruct (inv_player_of_dealer e d I D) as [p P].
  destruct (inv_in_play e p d I P D) as (H & Ld & Lp & Vd & Vp).
  destruct (upcard_exists d Ld) as [up U].
  pose proof (fuel_enough fuel d F Vd) as F'.
  destruct (step_stick_ok fuel e p d up H P D Vd U F')
    as (drawn & e' & L & _ & E).
  assert (R' : reachable e').
  { apply (reach_step e fuel 0 _ e' R E). discriminate. }
  destruct (reachable_books e' R') as [_ B'].
  pose proof (B' _ (played_dealer _ _ _ _ L)) as T.
  pose proof (played_stands _ _ _ _ L) as G.
  exists drawn. eexists. exists e'.
  split; [exact E|]. split; [exact (played_dealer _ _ _ _ L)|].
  split; [lia|].
  unfold _score, _is_bust. rewrite Z.gtb_ltb.
  destruct (Z.ltb_spec 21 (_sum_hand (d ++ drawn))); [left; reflexivity|right; lia].
Qed.

Lemma dealer_final_total_witness :
  _sum_hand [2; 3] <= 26 /\
  exists drawn r e',
    step 17 0 (snd (reset (init false false (script_rng [1; 1; 0; 6]%nat))))
    = (Ret r, e') /\
    dealer e' = Some ([2; 3] ++ drawn) /\
    17 <= _sum_hand ([2; 3] ++ drawn) <= 26 /\
    (_score ([2; 3] ++ drawn) = 0 \/ 17 <= _score ([2; 3] ++ drawn) <= 21).
Proof.
  apply (dealer_final_total
           (snd (reset (init false false (script_rng [1; 1; 0; 6]%nat))))
           17 [2; 3]).
  - apply reachable_reset, reach_init.
  - reflexivity.
  - lia.
Defined.
